(** * Bonfire oracle table: the refresh evaluation and its rendering

    A shallow embedding of the [Home] component of [src/App.tsx]: the
    [loadData] refresh (Hermes reference prices, then the on-chain round of
    every wrapper), and the table body that derives the divergence ratio, the
    minutes since the last update and the two colours from each row.

    JavaScript numbers are IEEE 754 binary64 values, so they are modelled by
    Rocq's primitive [float]; [===], [<] and [Math.abs] are [PrimFloat.eqb],
    [PrimFloat.ltb] and [PrimFloat.abs], and the arithmetic is reasoned
    about through its specification in [SpecFloat].  The [hermesMap] object
    is a [gmap] keyed by feed identifier, written once per oracle in
    configuration order, so that a later write for the same identifier
    replaces an earlier one.

    The two awaited calls are the only effects of [loadData].  A refresh is
    therefore run on a list of probes: each configured oracle together with
    the outcome of its Hermes request and of its contract read, an exception
    being one of the outcomes.

    The rest of the page is embedded in the same way: the effect and the
    three returns of [Home], [handleUpdate] with its two [setRows] updaters,
    its alerts and its [updatePrice] call, the [loadStats] effect of [Stats]
    as a state-and-exception computation over the eight [useState] cells
    (the five contract reads of the current source, which no longer reads
    [token1]), and the [toggle] of [FAQ]. *)

From stdpp Require Import gmap strings list.
From Stdlib Require Import ZArith Lia Ascii String Floats DecimalString.

Set Warnings "-inexact-float".
Open Scope string_scope.

(** ** JavaScript built-ins used by the component *)

Module JS.

(** [Number(b)] for a bigint [b]: the nearest binary64 value, ties to even. *)
Definition Number_of_bigint (z : Z) : float :=
  SF2Prim (binary_normalize prec emax z 0 false).

(** The value [(-1)^neg * m * 10^e] rounded to binary64 (ties to even).
    The quotient is rounded once, from the exact integers. *)
Definition roundDecimal (neg : bool) (m : N) (e : Z) : float :=
  match m with
  | N0 => if neg then neg_zero else zero
  | Npos p =>
      match e with
      | Zneg k =>
          SF2Prim (SFdiv prec emax (S754_finite neg p 0)
                                   (S754_finite false (10 ^ k)%positive 0))
      | _ =>
          SF2Prim (binary_normalize prec emax
                     (if neg then Z.opp (Zpos p * 10 ^ e) else Zpos p * 10 ^ e)
                     0 false)
      end
  end.

(** [10 ** n] for an integral exponent.  ECMAScript leaves the result of
    [**] implementation-approximated; the model takes the correctly rounded
    power, from which an engine may differ in the last place.  Statements
    that are to hold of every engine take the power as a parameter: see
    [priceOfDataWith]. *)
Definition pow10 (n : Z) : float := roundDecimal false 1 n.

(** *** [Number(s)] for a string [s] (StringToNumber)

    A character of the Rocq string stands for one code unit below 256. *)

Definition isWhiteSpace (c : ascii) : bool :=
  match N_of_ascii c with
  | 9 | 10 | 11 | 12 | 13 | 32 | 160 => true
  | _ => false
  end%N.

Fixpoint trimStart (s : string) : string :=
  match s with
  | String c s' => if isWhiteSpace c then trimStart s' else s
  | EmptyString => s
  end.

Definition trim (s : string) : string :=
  String.rev (trimStart (String.rev (trimStart s))).

Definition digitValue (c : ascii) : option N :=
  let n := N_of_ascii c in
  if ((48 <=? n) && (n <=? 57))%N then Some (n - 48)%N
  else if ((97 <=? n) && (n <=? 102))%N then Some (n - 87)%N
  else if ((65 <=? n) && (n <=? 70))%N then Some (n - 55)%N
  else None.

Definition digitIn (base : N) (c : ascii) : option N :=
  match digitValue c with
  | Some d => if (d <? base)%N then Some d else None
  | None => None
  end.

(** Reads the longest run of [base] digits: the accumulated value, the
    number of digits read and the rest of the string. *)
Fixpoint readDigits (base : N) (s : string) (acc : N) (cnt : nat)
  : N * nat * string :=
  match s with
  | String c s' =>
      match digitIn base c with
      | Some d => readDigits base s' (acc * base + d)%N (S cnt)
      | None => (acc, cnt, s)
      end
  | EmptyString => (acc, cnt, s)
  end.

(** The mathematical value of a numeric literal. *)
Inductive MV := MVinfinity | MVdecimal (m : N) (e : Z).

(** ExponentPart (optional), which must reach the end of the string. *)
Definition parseExponent (s : string) : option Z :=
  match s with
  | EmptyString => Some 0%Z
  | String c s' =>
      if (Ascii.eqb c "e" || Ascii.eqb c "E")%bool then
        let '(neg, ds) :=
          match s' with
          | String "+" t => (false, t)
          | String "-" t => (true, t)
          | _ => (false, s')
          end in
        match readDigits 10 ds 0 0 with
        | (v, S _, EmptyString) =>
            Some (if neg then Z.opp (Z.of_N v) else Z.of_N v)
        | _ => None
        end
      else None
  end.

(** StrUnsignedDecimalLiteral. *)
Definition parseUnsignedDecimal (s : string) : option MV :=
  if String.eqb s "Infinity" then Some MVinfinity
  else
    let '(ip, ni, s1) := readDigits 10 s 0 0 in
    let '(m, nf, s2) :=
      match s1 with
      | String "." t => readDigits 10 t ip 0
      | _ => (ip, 0, s1)
      end in
    match (ni + nf)%nat with
    | O => None
    | S _ =>
        match parseExponent s2 with
        | Some e => Some (MVdecimal m (e - Z.of_nat nf))
        | None => None
        end
    end.

(** NonDecimalIntegerLiteral: [0x], [0o] and [0b] prefixes, unsigned. *)
Definition parseNonDecimal (s : string) : option N :=
  match s with
  | String "0" (String c t) =>
      let base :=
        if (Ascii.eqb c "x" || Ascii.eqb c "X")%bool then Some 16%N
        else if (Ascii.eqb c "o" || Ascii.eqb c "O")%bool then Some 8%N
        else if (Ascii.eqb c "b" || Ascii.eqb c "B")%bool then Some 2%N
        else None in
      match base with
      | Some b =>
          match readDigits b t 0 0 with
          | (v, S _, EmptyString) => Some v
          | _ => None
          end
      | None => None
      end
  | _ => None
  end.

Definition valueOfMV (neg : bool) (v : MV) : float :=
  match v with
  | MVinfinity => if neg then neg_infinity else infinity
  | MVdecimal m e => roundDecimal neg m e
  end.

Definition Number_of_string (s : string) : float :=
  let t := trim s in
  match t with
  | EmptyString => zero
  | String c t' =>
      match parseNonDecimal t with
      | Some v => roundDecimal false v 0
      | None =>
          let '(neg, u) :=
            if Ascii.eqb c "+" then (false, t')
            else if Ascii.eqb c "-" then (true, t')
            else (false, t) in
          match parseUnsignedDecimal u with
          | Some v => valueOfMV neg v
          | None => nan
          end
      end
  end.

(** *** [x.toFixed(f)]

    The decimal digits of a natural number. *)
Definition digitsOf (n : N) : string :=
  NilZero.string_of_uint (N.to_uint n).

Fixpoint zeros (k : nat) : string :=
  match k with
  | O => EmptyString
  | S k' => String "0" (zeros k')
  end.

(** The integer [n] with [n / 10^f] nearest to [m * 2^e], the larger one
    on a tie. *)
Definition nearestScaled (f : nat) (m : positive) (e : Z) : N :=
  let scaled := (Zpos m * 10 ^ Z.of_nat f)%Z in
  match e with
  | Zneg k => Z.to_N ((2 * scaled + 2 ^ Zpos k) / 2 ^ (Zpos k + 1))
  | _ => Z.to_N (scaled * 2 ^ e)
  end.

(** Places the decimal point [f] digits from the right, padding with
    leading zeros. *)
Definition pointed (f : nat) (n : N) : string :=
  match f with
  | O => digitsOf n
  | S _ =>
      let d := digitsOf n in
      let d := zeros (S f - String.length d) ++ d in
      let k := (String.length d - f)%nat in
      substring 0 k d ++ "." ++ substring k f d
  end.

(** [Number.prototype.toFixed].  Values of magnitude [10^21] and above are
    printed by JavaScript in exponential notation, which is not modelled:
    the result is [None] there. *)
Definition toFixed (f : nat) (x : float) : option string :=
  match Prim2SF x with
  | S754_nan => Some "NaN"
  | S754_infinity false => Some "Infinity"
  | S754_infinity true => Some "-Infinity"
  | S754_zero _ => Some (pointed f 0)
  | S754_finite s m e =>
      if (abs x <? 1e21)%float then
        Some ((if s then "-" else "") ++ pointed f (nearestScaled f m e))
      else None
  end.

End JS.

(** ** Data model *)

(** An entry of [typedOracles]. *)
Record Oracle := {
  assetPair : string;
  wrapperAddress : string;
  pythFeedId : string;
}.

(** [interface OracleRow]. *)
Record OracleRow := {
  oracle : Oracle;
  lastOnChainPrice : float;
  freshPrice : float;
  lastUpdateTime : float;
  isUpdating : bool;
}.

(** The body of a Hermes answer, as far as [loadData] reads it:
    [data.parsed[0].price.price] (a decimal string) and
    [data.parsed[0].price.expo] (an integer); [None] is an absent ([null] or
    [undefined]) property. *)
Record PriceInfo := {
  price : option string;
  expo : option Z;
}.

Record ParsedEntry := { entryPrice : option PriceInfo }.

Record HermesData := { parsed : option (list ParsedEntry) }.

(** What the first [try] block meets: an exception ([fetch] or [resp.json()]
    rejects, or a property of [null] is read), a response that is not [ok],
    or a decoded body. *)
Inductive HermesResponse :=
  | HermesThrows
  | HermesNotOk (status : Z)
  | HermesOk (data : HermesData).

(** The tuple returned by [latestRoundData]. *)
Record RoundData := {
  roundId : Z;
  answer : Z;
  startedAt : Z;
  updatedAt : Z;
  answeredInRound : Z;
}.

(** What [publicClient.readContract] does: it rejects, or returns the round. *)
Inductive ReadOutcome :=
  | ReadThrows
  | ReadOk (round : RoundData).

(** One oracle together with what the network answers for it during a
    refresh: the Hermes response of the first loop and the contract read of
    the second. *)
Record Probe := {
  probed : Oracle;
  hermes : HermesResponse;
  chain : ReadOutcome;
}.

(** ** [loadData] *)

(** The statements between [const data = await resp.json()] and the
    assignment to [hermesMap]. *)
Definition priceOfData (data : HermesData) : float :=
  let parsedArr := default [] (parsed data) in
  match parsedArr with
  | p :: _ =>
      let rawPriceStr := default "0" (entryPrice p ≫= price) in
      let expo := default 0%Z (entryPrice p ≫= expo) in
      (JS.Number_of_string rawPriceStr * JS.pow10 expo)%float
  | [] => 0%float
  end.

(** The first [try]/[catch]: the fresh price stored for one feed. *)
Definition freshPriceOf (resp : HermesResponse) : float :=
  match resp with
  | HermesOk data => priceOfData data
  | HermesNotOk _ => 0%float
  | HermesThrows => 0%float
  end.

(** One iteration of the Hermes loop: [hermesMap[o.pythFeedId] = ...]. *)
Definition hermesStep (hermesMap : gmap string float) (p : Probe)
  : gmap string float :=
  <[pythFeedId (probed p) := freshPriceOf (hermes p)]> hermesMap.

Definition fetchHermes (ps : list Probe) : gmap string float :=
  fold_left hermesStep ps ∅.

(** The row pushed by one iteration of the on-chain loop. *)
Definition rowOf (hermesMap : gmap string float) (p : Probe) : OracleRow :=
  let o := probed p in
  match chain p with
  | ReadOk result =>
      {| oracle := o;
         lastOnChainPrice := (JS.Number_of_bigint (answer result) / 1e8)%float;
         freshPrice := default 0%float (hermesMap !! pythFeedId o);
         lastUpdateTime := JS.Number_of_bigint (updatedAt result);
         isUpdating := false |}
  | ReadThrows =>
      {| oracle := o;
         lastOnChainPrice := 0;
         freshPrice := 0;
         lastUpdateTime := 0;
         isUpdating := false |}
  end.

(** The on-chain loop: [newRows.push] once per oracle, in order. *)
Definition readChain (hermesMap : gmap string float) (ps : list Probe)
  : list OracleRow :=
  fold_left (fun newRows p => (newRows ++ [rowOf hermesMap p])%list) ps [].

(** The rows handed to [setRows]. *)
Definition loadData (ps : list Probe) : list OracleRow :=
  readChain (fetchHermes ps) ps.

(** ** The table body *)

Definition colorTime (minutes : float) : string :=
  if (minutes <? 15)%float then "green"
  else if (minutes <? 30)%float then "goldenrod"
  else "red".

Definition colorDiff (diff : float) : string :=
  if (abs diff <? 0.02)%float then "green" else "red".

Definition diffRatio (r : OracleRow) : float :=
  if (lastOnChainPrice r =? 0)%float then 0%float
  else ((freshPrice r - lastOnChainPrice r) / lastOnChainPrice r)%float.

Definition minsSince (nowSec : float) (r : OracleRow) : float :=
  ((nowSec - lastUpdateTime r) / 60)%float.

(** The names the specification gives to the colours. *)
Definition FRESH : string := "green".
Definition AGING : string := "goldenrod".
Definition STALE : string := "red".
Definition ALIGNED : string := "green".
Definition DIVERGENT : string := "red".

(** One [<tr>] of the table: the text of each cell and the two colours. *)
Record RowView := {
  pairCell : string;
  onChainCell : option string;
  freshCell : option string;
  diffCell : option string;
  diffColor : string;
  timeCell : option string;
  timeColor : string;
  buttonDisabled : bool;
  buttonLabel : string;
}.

Definition renderRow (nowSec : float) (r : OracleRow) : RowView :=
  let ratio := diffRatio r in
  let diffPct := (fun s => s ++ "%") <$> JS.toFixed 2 (ratio * 100)%float in
  let mins := minsSince nowSec r in
  {| pairCell := assetPair (oracle r);
     onChainCell := JS.toFixed 2 (lastOnChainPrice r);
     freshCell := JS.toFixed 2 (freshPrice r);
     diffCell := diffPct;
     diffColor := colorDiff ratio;
     timeCell := (fun s => s ++ " min") <$> JS.toFixed 1 mins;
     timeColor := colorTime mins;
     buttonDisabled := isUpdating r;
     buttonLabel := if isUpdating r then "Updating..." else "Update for Reward" |}.

Definition render (nowSec : float) (rows : list OracleRow) : list RowView :=
  map (renderRow nowSec) rows.

(** ** Vocabulary of the statements *)

(** The feed identifier under which the price of a probe is stored. *)
Definition feedOf (p : Probe) : string := pythFeedId (probed p).

(** The row pushed by the [catch] branch of the on-chain loop. *)
Definition zeroRow (o : Oracle) : OracleRow :=
  {| oracle := o; lastOnChainPrice := 0; freshPrice := 0;
     lastUpdateTime := 0; isUpdating := false |}.

(** The row of a feed both of whose reads answered. *)
Definition fetchedRow (o : Oracle) (data : HermesData) (round : RoundData)
  : OracleRow :=
  {| oracle := o;
     lastOnChainPrice := (JS.Number_of_bigint (answer round) / 1e8)%float;
     freshPrice := priceOfData data;
     lastUpdateTime := JS.Number_of_bigint (updatedAt round);
     isUpdating := false |}.

(** The contract read of [p] replaced by the outcome [c]. *)
Definition withChain (p : Probe) (c : ReadOutcome) : Probe :=
  {| probed := probed p; hermes := hermes p; chain := c |}.

(** The reference source gives one answer per feed identifier during a
    refresh: probes of the same feed carry the same response. *)
Definition sameAnswerPerFeed (ps : list Probe) : Prop :=
  forall p q, p ∈ ps -> q ∈ ps -> feedOf p = feedOf q -> hermes p = hermes q.

(** [priceOfData] with the [10 ** n] of the engine as a parameter, the
    value of [**] being left to the implementation. *)
Definition priceOfDataWith (power : Z -> float) (data : HermesData) : float :=
  let parsedArr := default [] (parsed data) in
  match parsedArr with
  | p :: _ =>
      let rawPriceStr := default "0" (entryPrice p ≫= price) in
      let expo := default 0%Z (entryPrice p ≫= expo) in
      (JS.Number_of_string rawPriceStr * power expo)%float
  | [] => 0%float
  end.

(** The reference fetch did not deliver a body. *)
Definition hermesFailed (resp : HermesResponse) : Prop :=
  match resp with
  | HermesOk _ => False
  | _ => True
  end.

(** A body whose first parsed entry carries the given price object. *)
Definition bodyOf (info : option PriceInfo) (rest : list ParsedEntry)
  : HermesData :=
  {| parsed := Some ({| entryPrice := info |} :: rest) |}.

(** A Hermes body with one parsed entry. *)
Definition hermesPrice (significand : string) (exponent : Z) : HermesResponse :=
  HermesOk (bodyOf (Some {| price := Some significand;
                            expo := Some exponent |}) []).

(** A successful contract read. *)
Definition roundOf (answer updatedAt : Z) : ReadOutcome :=
  ReadOk {| roundId := 1; answer := answer; startedAt := updatedAt;
            updatedAt := updatedAt; answeredInRound := 1 |}.

(** Sample feeds. *)
Definition ethUsd : Oracle :=
  {| assetPair := "ETH/USD"; wrapperAddress := "0xA1"; pythFeedId := "0xff61" |}.
Definition btcUsd : Oracle :=
  {| assetPair := "BTC/USD"; wrapperAddress := "0xB2"; pythFeedId := "0xe62d" |}.
Definition solUsd : Oracle :=
  {| assetPair := "SOL/USD"; wrapperAddress := "0xC3"; pythFeedId := "0xef0d" |}.

(** The exponent below which binary64 has no digit. *)
Definition emin64 : Z := -1074.

(** A result of sign [s] that is neither a zero nor NaN. *)
Definition signed_nonzero (s : bool) (r : spec_float) : Prop :=
  r = S754_infinity s \/
  exists mf ef, r = S754_finite s mf ef.

(** A non-zero value of sign [s] that is less than 1074 binary orders
    below the finite value of mantissa [my] and exponent [ey]. *)
Definition near_nonzero (s : bool) (my : positive) (ey : Z) (d : spec_float)
  : Prop :=
  d = S754_infinity s \/
  exists md ed,
    d = S754_finite s md ed /\
    (emin64 + (Zdigits2 (Z.pos my) + ey) < Zdigits2 (Z.pos md) + ed)%Z.

(** ** The page around the table *)

(** The state of [Home]: [rows] and [isLoading]. *)
Record HomeState := {
  rows : list OracleRow;
  isLoading : bool;
}.

(** What [useState] starts from. *)
Definition initialHome : HomeState := {| rows := []; isLoading := false |}.

(** The effect of [Home]: nothing without a client; otherwise [loadData],
    which ends with [setRows(newRows)] and [setIsLoading(false)]. *)
Definition homeEffect (connected : bool) (ps : list Probe) (st : HomeState)
  : HomeState :=
  if connected then {| rows := loadData ps; isLoading := false |} else st.

(** What [Home] returns: one of the two paragraphs, or the table. *)
Inductive HomeView :=
  | LoadingOracles
  | NoOracles
  | OracleTable (lines : list RowView).

Definition homeView (nowSec : float) (st : HomeState) : HomeView :=
  if isLoading st then LoadingOracles
  else match rows st with
       | [] => NoOracles
       | _ :: _ => OracleTable (render nowSec (rows st))
       end.

(** ** [handleUpdate] *)

(** What an awaited call does: it throws an error with a message, or it
    returns. *)
Inductive Result (A : Type) :=
  | Threw (message : string)
  | Returned (a : A).

Arguments Threw {A} message.
Arguments Returned {A} a.

(** The Hermes answer as [handleUpdate] reads it: [hermesData.binary.data],
    a list of hexadecimal strings. *)
Inductive UpdateResponse :=
  | UpdateThrows (message : string)
  | UpdateNotOk (status : N)
  | UpdateOk (data : list string).

(** The network seen by [handleUpdate]: the Hermes request of a feed and the
    [getRequiredFee] read of a wrapper for given update data. *)
Record UpdateWorld := {
  fetchUpdate : string -> UpdateResponse;
  getRequiredFee : string -> list string -> Result Z;
}.

(** [agwClient.writeContract] for [updatePrice]: the wrapper, the update
    data and the value sent give a transaction hash. *)
Definition AgwClient : Type := string -> list string -> Z -> Result string.

(** The [updatePrice] call made through the wallet. *)
Record UpdateCall := {
  callAddress : string;
  callData : list string;
  callValue : Z;
}.

(** [hex.startsWith("0x") ? hex : `0x${hex}`]. *)
Definition withHexPrefix (hex : string) : string :=
  if String.prefix "0x" hex then hex else "0x" ++ hex.

(** The updater given to [setRows]: the rows of one wrapper get the flag. *)
Definition setUpdating (address : string) (flag : bool) (old : list OracleRow)
  : list OracleRow :=
  map (fun r =>
         if String.eqb (wrapperAddress (oracle r)) address
         then {| oracle := oracle r;
                 lastOnChainPrice := lastOnChainPrice r;
                 freshPrice := freshPrice r;
                 lastUpdateTime := lastUpdateTime r;
                 isUpdating := flag |}
         else r) old.

(** One run of [handleUpdate]: the rows while the calls are awaited, the
    rows once it has returned, the alerts shown and the [updatePrice] call
    made, if any. *)
Record UpdateRun := {
  rowsDuring : list OracleRow;
  rowsAfter : list OracleRow;
  alerts : list string;
  written : option UpdateCall;
}.

(** The [try] block of [handleUpdate]: the alert it ends with and the call
    it made. *)
Definition tryUpdate (client : AgwClient) (w : UpdateWorld) (row : OracleRow)
  : string * option UpdateCall :=
  let address := wrapperAddress (oracle row) in
  match fetchUpdate w (pythFeedId (oracle row)) with
  | UpdateThrows message => ("Error: " ++ message, None)
  | UpdateNotOk status =>
      ("Error: " ++ ("Hermes request failed: " ++ JS.digitsOf status), None)
  | UpdateOk data =>
      let updateDataHexArray := map withHexPrefix data in
      match getRequiredFee w address updateDataHexArray with
      | Threw message => ("Error: " ++ message, None)
      | Returned requiredFee =>
          let call := {| callAddress := address;
                         callData := updateDataHexArray;
                         callValue := requiredFee |} in
          match client address updateDataHexArray requiredFee with
          | Threw message => ("Error: " ++ message, Some call)
          | Returned txHash => ("TX sent: " ++ txHash, Some call)
          end
      end
  end.

Definition handleUpdate (agwClient : option AgwClient) (w : UpdateWorld)
  (old : list OracleRow) (row : OracleRow) : UpdateRun :=
  match agwClient with
  | None =>
      {| rowsDuring := old; rowsAfter := old;
         alerts := ["Connect with Abstract first."]; written := None |}
  | Some client =>
      let address := wrapperAddress (oracle row) in
      let during := setUpdating address true old in
      let '(alert, call) := tryUpdate client w row in
      {| rowsDuring := during;
         rowsAfter := setUpdating address false during;
         alerts := [alert];
         written := call |}
  end.

(** ** The statistics page *)

(** The state of [Stats]. *)
Record StatsState := {
  loading : bool;
  circSupply : float;
  burned : float;
  firePriceEth : float;
  firePriceUsd : float;
  marketCap : float;
  burnedValue : float;
  ethUsdPrice : float;
}.

(** What [useState] starts from. *)
Definition initialStats : StatsState :=
  {| loading := false; circSupply := 0; burned := 0; firePriceEth := 0;
     firePriceUsd := 0; marketCap := 0; burnedValue := 0; ethUsdPrice := 0 |}.

(** The network seen by [loadStats]: the five contract reads and the Hermes
    request of a feed. *)
Record StatsWorld := {
  totalSupplyRead : Result Z;
  devBalRead : Result Z;
  burnedBalRead : Result Z;
  token0Read : Result string;
  getReservesRead : Result (Z * Z * Z);
  hermesRead : string -> HermesResponse;
}.

(** A computation of [loadStats]: it updates the state and returns, or
    throws, keeping the updates made so far. *)
Definition Eff (A : Type) : Type := StatsState -> StatsState * Result A.

Definition ret {A : Type} (a : A) : Eff A := fun s => (s, Returned a).

Definition bind {A B : Type} (c : Eff A) (k : A -> Eff B) : Eff B :=
  fun s =>
    match c s with
    | (s', Returned a) => k a s'
    | (s', Threw message) => (s', Threw message)
    end.

Definition await {A : Type} (r : Result A) : Eff A := fun s => (s, r).

Definition modify (f : StatsState -> StatsState) : Eff unit :=
  fun s => (f s, Returned tt).

Declare Scope eff_scope.
Delimit Scope eff_scope with eff.
Notation "x <- c ;; k" := (bind c (fun x => k))
  (at level 100, c at next level, right associativity) : eff_scope.
Notation "c ;; k" := (bind c (fun _ => k))
  (at level 100, right associativity) : eff_scope.

Definition setLoading (b : bool) : Eff unit :=
  modify (fun s =>
    {| loading := b; circSupply := circSupply s; burned := burned s;
       firePriceEth := firePriceEth s; firePriceUsd := firePriceUsd s;
       marketCap := marketCap s; burnedValue := burnedValue s;
       ethUsdPrice := ethUsdPrice s |}).

Definition setCircSupply (x : float) : Eff unit :=
  modify (fun s =>
    {| loading := loading s; circSupply := x; burned := burned s;
       firePriceEth := firePriceEth s; firePriceUsd := firePriceUsd s;
       marketCap := marketCap s; burnedValue := burnedValue s;
       ethUsdPrice := ethUsdPrice s |}).

Definition setBurned (x : float) : Eff unit :=
  modify (fun s =>
    {| loading := loading s; circSupply := circSupply s; burned := x;
       firePriceEth := firePriceEth s; firePriceUsd := firePriceUsd s;
       marketCap := marketCap s; burnedValue := burnedValue s;
       ethUsdPrice := ethUsdPrice s |}).

Definition setFirePriceEth (x : float) : Eff unit :=
  modify (fun s =>
    {| loading := loading s; circSupply := circSupply s; burned := burned s;
       firePriceEth := x; firePriceUsd := firePriceUsd s;
       marketCap := marketCap s; burnedValue := burnedValue s;
       ethUsdPrice := ethUsdPrice s |}).

Definition setFirePriceUsd (x : float) : Eff unit :=
  modify (fun s =>
    {| loading := loading s; circSupply := circSupply s; burned := burned s;
       firePriceEth := firePriceEth s; firePriceUsd := x;
       marketCap := marketCap s; burnedValue := burnedValue s;
       ethUsdPrice := ethUsdPrice s |}).

Definition setMarketCap (x : float) : Eff unit :=
  modify (fun s =>
    {| loading := loading s; circSupply := circSupply s; burned := burned s;
       firePriceEth := firePriceEth s; firePriceUsd := firePriceUsd s;
       marketCap := x; burnedValue := burnedValue s;
       ethUsdPrice := ethUsdPrice s |}).

Definition setBurnedValue (x : float) : Eff unit :=
  modify (fun s =>
    {| loading := loading s; circSupply := circSupply s; burned := burned s;
       firePriceEth := firePriceEth s; firePriceUsd := firePriceUsd s;
       marketCap := marketCap s; burnedValue := x;
       ethUsdPrice := ethUsdPrice s |}).

Definition setEthUsdPrice (x : float) : Eff unit :=
  modify (fun s =>
    {| loading := loading s; circSupply := circSupply s; burned := burned s;
       firePriceEth := firePriceEth s; firePriceUsd := firePriceUsd s;
       marketCap := marketCap s; burnedValue := burnedValue s;
       ethUsdPrice := x |}).

(** [try { body } catch (err) { console.error(...) } finally { last }]:
    the state reached by [body], thrown or not, then [last]. *)
Definition tryCatchFinally (body last : Eff unit) : Eff unit :=
  fun s => last (fst (body s)).

(** The price read by [loadStats] from a decoded Hermes body. *)
Definition ethPriceOfData (hermesData : HermesData) : float :=
  match parsed hermesData ≫= head with
  | Some p =>
      let rawPriceStr := default "0" (entryPrice p ≫= price) in
      let expo := default 0%Z (entryPrice p ≫= expo) in
      (JS.Number_of_string rawPriceStr * JS.pow10 expo)%float
  | None => 0%float
  end.

Section StatsPage.

(** [getAddress] of viem, which throws on a string that is not an address,
    and the checksummed constant [FIRE_TOKEN_ADDRESS]. *)
Variable getAddress : string -> Result string.
Variable FIRE_TOKEN_ADDRESS : string.

(** The body of the [try] block of [loadStats]. *)
Definition statsBody (w : StatsWorld) (typedOracles : list Oracle) : Eff unit :=
  (totalSupply <- await (totalSupplyRead w) ;;
   devBal <- await (devBalRead w) ;;
   burnedBal <- await (burnedBalRead w) ;;
   let circ := (JS.Number_of_bigint (totalSupply - devBal - burnedBal)
                / 1e18)%float in
   setCircSupply circ ;;
   setBurned (JS.Number_of_bigint burnedBal / 1e18)%float ;;
   token0 <- await (token0Read w) ;;
   reserves <- await (getReservesRead w) ;;
   token0Address <- await (getAddress token0) ;;
   let '(reserveFire, reserveEth) :=
     if String.eqb token0Address FIRE_TOKEN_ADDRESS
     then (JS.Number_of_bigint (fst (fst reserves)),
           JS.Number_of_bigint (snd (fst reserves)))
     else (JS.Number_of_bigint (snd (fst reserves)),
           JS.Number_of_bigint (fst (fst reserves))) in
   let firePriceInEth := (reserveEth / reserveFire)%float in
   setFirePriceEth firePriceInEth ;;
   let foundEthUsdFeed :=
     find (fun o => String.eqb (assetPair o) "ETH/USD") typedOracles in
   ethPriceUsd <-
     match foundEthUsdFeed with
     | Some feed =>
         match hermesRead w (pythFeedId feed) with
         | HermesThrows => await (Threw "fetch")
         | HermesNotOk _ => ret 0%float
         | HermesOk hermesData => ret (ethPriceOfData hermesData)
         end
     | None => ret 0%float
     end ;;
   setEthUsdPrice ethPriceUsd ;;
   let fireUsd := (firePriceInEth * ethPriceUsd)%float in
   setFirePriceUsd fireUsd ;;
   setMarketCap (circ * fireUsd)%float ;;
   setBurnedValue ((JS.Number_of_bigint burnedBal / 1e18) * fireUsd)%float)%eff.

(** [loadStats]: the state of the page once it has run. *)
Definition loadStats (w : StatsWorld) (typedOracles : list Oracle)
  (s : StatsState) : StatsState :=
  fst ((setLoading true ;;
        tryCatchFinally (statsBody w typedOracles) (setLoading false))%eff s).

End StatsPage.

(** ** The FAQ page *)

(** [toggle]: the new value of [expanded]. *)
Definition toggle (expanded : option nat) (i : nat) : option nat :=
  if decide (expanded = Some i) then None else Some i.

(** The page: every question, with its answer where [expanded === i]. *)
Definition faqView (faqs : list (string * string)) (expanded : option nat)
  : list (string * option string) :=
  imap (fun i item =>
          (fst item,
           if decide (expanded = Some i) then Some (snd item) else None))
       faqs.

(** ** More vocabulary *)

(** The colours of [colorTime] from freshest to stalest. *)
Definition staleness (color : string) : nat :=
  if String.eqb color "green" then 0
  else if String.eqb color "goldenrod" then 1
  else 2.

(** The rows of one wrapper. *)
Definition ofWrapper (address : string) (r : OracleRow) : bool :=
  String.eqb (wrapperAddress (oracle r)) address.

(** The data of a row, its flag left out. *)
Definition rowData (r : OracleRow) : Oracle * float * float * float :=
  (oracle r, lastOnChainPrice r, freshPrice r, lastUpdateTime r).

(** The answers shown on the FAQ page. *)
Definition shownAnswers (view : list (string * option string)) : list string :=
  omap snd view.

(** The supply figures and the figures in dollars of the statistics page. *)
Definition supplyFigures (s : StatsState) : float * float :=
  (circSupply s, burned s).

Definition usdFigures (s : StatsState) : float * float * float * float :=
  (ethUsdPrice s, firePriceUsd s, marketCap s, burnedValue s).

(** The configured oracle whose price [loadStats] asks Hermes for. *)
Definition ethUsdFeed (typedOracles : list Oracle) : option Oracle :=
  find (fun o => String.eqb (assetPair o) "ETH/USD") typedOracles.

(** The range of the [int256] answer of [latestRoundData]. *)
Definition int256 (z : Z) : Prop := (- 2 ^ 255 <= z < 2 ^ 255)%Z.

(** The range of the [uint112] reserves of [getReserves]. *)
Definition uint112 (z : Z) : Prop := (0 <= z < 2 ^ 112)%Z.

(** ** The built-ins on sample inputs *)

Section BuiltIns.

Local Open Scope float_scope.

Example Number_of_decimal_strings :
  JS.Number_of_string "25010000000" = 25010000000 /\
  JS.Number_of_string " 0.02 " = 0.02 /\
  JS.Number_of_string "-1.5e3" = -1500 /\
  JS.Number_of_string ".5" = 0.5 /\
  JS.Number_of_string "5." = 5 /\
  JS.Number_of_string "0x1F" = 31 /\
  JS.Number_of_string "" = 0 /\
  JS.Number_of_string "-0" = -0 /\
  JS.Number_of_string "-Infinity" = neg_infinity.
Proof. now vm_compute. Qed.

Example Number_of_malformed_strings :
  JS.Number_of_string "abc" = nan /\
  JS.Number_of_string "2501,50" = nan /\
  JS.Number_of_string "12 3" = nan /\
  JS.Number_of_string "1e" = nan /\
  JS.Number_of_string "." = nan /\
  JS.Number_of_string "-0x10" = nan.
Proof. now vm_compute. Qed.

Example Number_of_bigints :
  JS.Number_of_bigint 250000000000 = 250000000000 /\
  JS.Number_of_bigint 0 = 0 /\
  JS.Number_of_bigint (- (2 ^ 53 + 1)) = -9007199254740992.
Proof. now vm_compute. Qed.

Example powers_of_ten :
  JS.pow10 0 = 1 /\ JS.pow10 (-8) = 1e-8 /\ JS.pow10 308 = 1e308 /\
  JS.pow10 309 = infinity /\ JS.pow10 (-324) = 0.
Proof. now vm_compute. Qed.

Example toFixed_samples :
  JS.toFixed 2 0 = Some "0.00" /\
  JS.toFixed 2 2500 = Some "2500.00" /\
  JS.toFixed 2 1.005 = Some "1.00" /\
  JS.toFixed 0 2.5 = Some "3" /\
  JS.toFixed 2 (-0.001) = Some "-0.00" /\
  JS.toFixed 1 29367360 = Some "29367360.0" /\
  JS.toFixed 2 nan = Some "NaN" /\
  JS.toFixed 2 1e21 = None.
Proof. now vm_compute. Qed.

End BuiltIns.

(** ** Comparisons of binary64 values *)

Section FloatOrder.

Local Open Scope float_scope.

Local Ltac cmp_cases :=
  repeat match goal with
    | |- context [Pos.compare_cont Eq ?a ?b] =>
        change (Pos.compare_cont Eq a b) with (Pos.compare a b)
    | H : context [Pos.compare_cont Eq ?a ?b] |- _ =>
        change (Pos.compare_cont Eq a b) with (Pos.compare a b) in H
    end;
  repeat match goal with
    | |- context [Z.compare ?a ?b] => destruct (Z.compare_spec a b)
    | H : context [Z.compare ?a ?b] |- _ => destruct (Z.compare_spec a b)
    | |- context [Pos.compare ?a ?b] => destruct (Pos.compare_spec a b)
    | H : context [Pos.compare ?a ?b] |- _ => destruct (Pos.compare_spec a b)
    end;
  simpl in *; try discriminate; try reflexivity; try lia.

Lemma SFltb_SFleb_trans_false (a b m : spec_float) :
  SFltb a b = true -> SFleb b m = true -> SFltb m a = false.
Proof.
  unfold SFltb, SFleb.
  destruct a as [[]|[]| |[] ma ea], b as [[]|[]| |[] mb eb],
           m as [[]|[]| |[] mm em];
    simpl; try discriminate; try reflexivity; intros; cmp_cases.
Qed.

Lemma SFleb_SFltb_false (a m : spec_float) :
  SFleb a m = true -> SFltb m a = false.
Proof.
  unfold SFltb, SFleb.
  destruct a as [[]|[]| |[] ma ea], m as [[]|[]| |[] mm em];
    simpl; try discriminate; try reflexivity; intros; cmp_cases.
Qed.

Lemma SFltb_trans (a b c : spec_float) :
  SFltb a b = true -> SFltb b c = true -> SFltb a c = true.
Proof.
  unfold SFltb.
  destruct a as [[]|[]| |[] ma ea], b as [[]|[]| |[] mb eb],
           c as [[]|[]| |[] mc ec];
    simpl; try discriminate; try reflexivity; intros; cmp_cases.
Qed.

(** [b <= m] excludes [m < a] for every [a < b]. *)
Lemma ltb_leb_trans_false (a b m : float) :
  (a <? b) = true -> (b <=? m) = true -> (m <? a) = false.
Proof. rewrite !ltb_spec, leb_spec. apply SFltb_SFleb_trans_false. Qed.

Lemma leb_ltb_false (a m : float) :
  (a <=? m) = true -> (m <? a) = false.
Proof. rewrite ltb_spec, leb_spec. apply SFleb_SFltb_false. Qed.

Lemma ltb_trans (a b c : float) :
  (a <? b) = true -> (b <? c) = true -> (a <? c) = true.
Proof. rewrite !ltb_spec. apply SFltb_trans. Qed.

Lemma abs_opp (x : float) : abs (- x) = abs x.
Proof.
  apply Prim2SF_inj. rewrite !abs_spec, opp_spec.
  now destruct (Prim2SF x).
Qed.

(** [x === 0] holds of the two zeros only. *)
Lemma eqb_zero_iff (x : float) :
  (x =? 0) = true <-> x = 0 \/ x = (-0).
Proof.
  split.
  - rewrite eqb_spec. change (Prim2SF 0) with (S754_zero false).
    intros H.
    destruct (Prim2SF x) as [[]|[]| |[] mx ex] eqn:E;
      try discriminate H.
    + right. apply Prim2SF_inj. now rewrite E.
    + left. apply Prim2SF_inj. now rewrite E.
  - now intros [-> | ->].
Qed.

End FloatOrder.

(** ** Rounding of binary64 values *)

Section Rounding.

Local Open Scope Z_scope.

Lemma digits2_pos_size (p : positive) : digits2_pos p = Pos.size p.
Proof. induction p as [p IH|p IH|]; simpl; now rewrite ?IH. Qed.

(** The number of binary digits of a positive integer brackets it between
    two consecutive powers of two. *)
Lemma Zdigits2_bounds (m : Z) :
  0 < m -> 1 <= Zdigits2 m /\ 2 ^ (Zdigits2 m - 1) <= m < 2 ^ Zdigits2 m.
Proof.
  destruct m as [|p|p]; try lia. intros _.
  change (Zdigits2 (Z.pos p)) with (Z.pos (digits2_pos p)).
  rewrite digits2_pos_size.
  pose proof (Pos.size_gt p) as Hgt. pose proof (Pos.size_le p) as Hle.
  apply Pos2Z.pos_lt_pos in Hgt. apply Pos2Z.pos_le_pos in Hle.
  rewrite Pos2Z.inj_pow in Hgt, Hle.
  assert (Hs : 2 ^ Z.pos (Pos.size p) = 2 * 2 ^ (Z.pos (Pos.size p) - 1))
    by (rewrite <- Z.pow_succ_r by lia; f_equal; lia).
  lia.
Qed.

Lemma Zdigits2_le (m : Z) (n : Z) :
  0 < m -> 0 <= n -> m < 2 ^ n -> Zdigits2 m <= n.
Proof.
  intros Hm Hn Hlt. destruct (Zdigits2_bounds m Hm) as (H1 & H2 & _).
  destruct (Z.le_gt_cases (Zdigits2 m) n) as [|Hgt]; [assumption|].
  assert (2 ^ n <= 2 ^ (Zdigits2 m - 1)) by (apply Z.pow_le_mono_r; lia).
  lia.
Qed.

Lemma Zdigits2_gt (m : Z) (n : Z) :
  0 <= n -> 2 ^ n <= m -> n < Zdigits2 m.
Proof.
  intros Hn Hle.
  assert (Hm : 0 < m) by (pose proof (Z.pow_pos_nonneg 2 n); lia).
  destruct (Zdigits2_bounds m Hm) as (H1 & _ & H3).
  destruct (Z.lt_ge_cases n (Zdigits2 m)) as [|Hge]; [assumption|].
  assert (2 ^ Zdigits2 m <= 2 ^ n) by (apply Z.pow_le_mono_r; lia).
  lia.
Qed.

Lemma Zdigits2_mono (a b : Z) : 0 < a -> a <= b -> Zdigits2 a <= Zdigits2 b.
Proof.
  intros Ha Hab.
  assert (Hb : 0 < b) by lia.
  destruct (Zdigits2_bounds b Hb) as (H1 & _ & H3).
  apply Zdigits2_le; lia.
Qed.

(** Dropping [n] low digits of a number that has more than [n] digits. *)
Lemma Zdigits2_div_pow2 (m n : Z) :
  0 < m -> 0 <= n -> n < Zdigits2 m ->
  0 < m / 2 ^ n /\ Zdigits2 (m / 2 ^ n) = Zdigits2 m - n.
Proof.
  intros Hm Hn Hlt.
  destruct (Zdigits2_bounds m Hm) as (H1 & H2 & H3).
  assert (Hp : 0 < 2 ^ n) by (apply Z.pow_pos_nonneg; lia).
  assert (Hlo : 2 ^ (Zdigits2 m - 1 - n) <= m / 2 ^ n).
  { apply Z.div_le_lower_bound; [exact Hp|].
    rewrite <- Z.pow_add_r by lia.
    replace (n + (Zdigits2 m - 1 - n)) with (Zdigits2 m - 1) by lia. exact H2. }
  assert (Hhi : m / 2 ^ n < 2 ^ (Zdigits2 m - n)).
  { apply Z.div_lt_upper_bound; [exact Hp|].
    rewrite <- Z.pow_add_r by lia.
    replace (n + (Zdigits2 m - n)) with (Zdigits2 m) by lia. exact H3. }
  assert (Hpos : 0 < m / 2 ^ n).
  { pose proof (Z.pow_pos_nonneg 2 (Zdigits2 m - 1 - n)). lia. }
  split; [exact Hpos|].
  apply Z.le_antisymm.
  - apply Zdigits2_le; lia.
  - pose proof (Zdigits2_gt (m / 2 ^ n) (Zdigits2 m - 1 - n)). lia.
Qed.

Lemma shr_m_shr_1 (mrs : shr_record) :
  0 <= shr_m mrs -> shr_m (shr_1 mrs) = shr_m mrs / 2.
Proof.
  destruct mrs as [m r s]. simpl. intros Hm.
  destruct m as [|[p|p|]|p]; simpl; try lia; try reflexivity.
  - apply (Z.div_unique _ _ _ 1); lia.
  - apply (Z.div_unique _ _ _ 0); lia.
Qed.

Lemma shr_m_iter (n : positive) (mrs : shr_record) :
  0 <= shr_m mrs ->
  shr_m (iter_pos shr_1 n mrs) = shr_m mrs / 2 ^ Zpos n.
Proof.
  revert mrs. induction n as [n IH|n IH|]; intros mrs Hm; simpl iter_pos.
  - assert (H1 : 0 <= shr_m (shr_1 mrs))
      by (rewrite shr_m_shr_1 by exact Hm; apply Z.div_pos; lia).
    assert (H2 : 0 <= shr_m (iter_pos shr_1 n (shr_1 mrs)))
      by (rewrite IH by exact H1; apply Z.div_pos; [lia|apply Z.pow_pos_nonneg; lia]).
    rewrite IH by exact H2. rewrite IH by exact H1.
    rewrite shr_m_shr_1 by exact Hm.
    rewrite !Z.div_div by (try apply Z.pow_pos_nonneg; lia).
    f_equal.
    replace (Z.pos n~1) with (1 + Z.pos n + Z.pos n) by lia.
    rewrite !Z.pow_add_r by lia. lia.
  - assert (H1 : 0 <= shr_m (iter_pos shr_1 n mrs))
      by (rewrite IH by exact Hm; apply Z.div_pos; [lia|apply Z.pow_pos_nonneg; lia]).
    rewrite IH by exact H1. rewrite IH by exact Hm.
    rewrite !Z.div_div by (try apply Z.pow_pos_nonneg; lia).
    f_equal.
    replace (Z.pos n~0) with (Z.pos n + Z.pos n) by lia.
    rewrite !Z.pow_add_r by lia. lia.
  - now apply shr_m_shr_1.
Qed.


Lemma shr_m_record_of_loc (m : Z) (l : location) :
  shr_m (shr_record_of_loc m l) = m.
Proof. now destruct l as [|[]]. Qed.

Lemma fexp_eq (e : Z) : fexp prec emax e = Z.max (e - 53) emin64.
Proof. reflexivity. Qed.

(** Shifting to the canonical exponent keeps a number above the smallest
    subnormal positive, and keeps its magnitude [digits + exponent]. *)
Lemma shr_fexp_pos (m e : Z) (l : location) :
  0 < m -> emin64 < Zdigits2 m + e ->
  0 < shr_m (fst (shr_fexp prec emax m e l)) /\
  Zdigits2 (shr_m (fst (shr_fexp prec emax m e l)))
  + snd (shr_fexp prec emax m e l) = Zdigits2 m + e.
Proof.
  intros Hm HG. unfold shr_fexp, shr. rewrite fexp_eq.
  destruct (Zdigits2_bounds m Hm) as (Hd & _).
  destruct (Z.max (Zdigits2 m + e - 53) emin64 - e) as [|n|n] eqn:En; simpl;
    rewrite ?shr_m_record_of_loc; try (split; [lia|reflexivity]).
  rewrite shr_m_iter by (rewrite shr_m_record_of_loc; lia).
  rewrite shr_m_record_of_loc.
  assert (Hn : Z.pos n < Zdigits2 m) by (unfold emin64 in *; lia).
  destruct (Zdigits2_div_pow2 m (Z.pos n)) as [Hq Hdq]; try lia.
Qed.

Lemma round_nearest_even_ge (m : Z) (l : location) :
  m <= round_nearest_even m l.
Proof.
  unfold round_nearest_even. destruct l as [|[]]; try lia.
  destruct (Z.even m); lia.
Qed.

(** Rounding a positive mantissa whose magnitude is above the smallest
    subnormal gives a non-zero result of the requested sign, of at least
    that magnitude. *)
Lemma binary_round_aux_pos (s : bool) (m e : Z) (l : location) :
  0 < m -> emin64 < Zdigits2 m + e ->
  binary_round_aux prec emax s m e l = S754_infinity s \/
  exists mf ef,
    binary_round_aux prec emax s m e l = S754_finite s mf ef /\
    Zdigits2 m + e <= Zdigits2 (Z.pos mf) + ef.
Proof.
  intros Hm HG. unfold binary_round_aux.
  pose proof (shr_fexp_pos m e l Hm HG) as H1.
  destruct (shr_fexp prec emax m e l) as [mrs e1]. simpl in H1.
  destruct H1 as [Hpos Hmag].
  pose proof (round_nearest_even_ge (shr_m mrs) (loc_of_shr_record mrs)) as Hge.
  set (m1 := round_nearest_even (shr_m mrs) (loc_of_shr_record mrs)) in *.
  assert (Hm1 : 0 < m1) by lia.
  pose proof (Zdigits2_mono (shr_m mrs) m1 Hpos Hge) as Hdig.
  assert (HG1 : emin64 < Zdigits2 m1 + e1) by lia.
  pose proof (shr_fexp_pos m1 e1 loc_Exact Hm1 HG1) as H2.
  destruct (shr_fexp prec emax m1 e1 loc_Exact) as [mrs2 e2]. simpl in H2.
  destruct H2 as [Hpos2 Hmag2].
  destruct (shr_m mrs2) as [|mf|mf]; try lia.
  destruct (e2 <=? emax - prec); [right|now left].
  exists mf, e2. split; [reflexivity|lia].
Qed.


Lemma signed_nonzero_of_round (s : bool) (m e : Z) (l : location) :
  0 < m -> emin64 < Zdigits2 m + e ->
  signed_nonzero s (binary_round_aux prec emax s m e l).
Proof.
  intros Hm HG.
  destruct (binary_round_aux_pos s m e l Hm HG) as [H|(mf & ef & H & _)].
  - now left.
  - right. now exists mf, ef.
Qed.

(** The integer quotient computed by the division has at least as many
    digits as the difference of the operands' digit counts. *)
Lemma div_quotient_lower (mx my : positive) (s : Z) :
  0 <= s ->
  0 <= Zdigits2 (Z.pos mx) + s - Zdigits2 (Z.pos my) - 1 ->
  2 ^ (Zdigits2 (Z.pos mx) + s - Zdigits2 (Z.pos my) - 1)
  <= Z.pos mx * 2 ^ s / Z.pos my.
Proof.
  intros Hs Ht.
  set (d1 := Zdigits2 (Z.pos mx)) in *. set (d2 := Zdigits2 (Z.pos my)) in *.
  destruct (Zdigits2_bounds (Z.pos mx)) as (Hd1 & Hlo1 & Hhi1); [lia|].
  destruct (Zdigits2_bounds (Z.pos my)) as (Hd2 & Hlo2 & Hhi2); [lia|].
  fold d1 in Hd1, Hlo1, Hhi1. fold d2 in Hd2, Hlo2, Hhi2.
  pose proof (Z.pow_pos_nonneg 2 s ltac:(lia) Hs) as Hps.
  pose proof (Z.pow_pos_nonneg 2 (d1 + s - d2 - 1) ltac:(lia) Ht) as Hpt.
  apply Z.div_le_lower_bound; [lia|].
  assert (Hlo : 2 ^ (d2 + (d1 + s - d2 - 1)) <= Z.pos mx * 2 ^ s).
  { replace (d2 + (d1 + s - d2 - 1)) with (d1 - 1 + s) by lia.
    rewrite Z.pow_add_r by lia. apply Z.mul_le_mono_nonneg_r; lia. }
  rewrite Z.pow_add_r in Hlo by lia. nia.
Qed.

(** The division of two finite values: the integer quotient of the
    mantissas, the first scaled by [2 ^ s], rounded at exponent [e']. *)
Lemma SFdiv_unfold (sx sy : bool) (mx my : positive) (ex ey : Z) :
  exists e',
    e' = Z.min (Z.max (Zdigits2 (Z.pos mx) + ex
                       - (Zdigits2 (Z.pos my) + ey) - 53) emin64) (ex - ey) /\
    SFdiv prec emax (S754_finite sx mx ex) (S754_finite sy my ey)
    = binary_round_aux prec emax (xorb sx sy)
        (Z.pos mx * 2 ^ (ex - ey - e') / Z.pos my) e'
        (new_location (Z.pos my) (Z.pos mx * 2 ^ (ex - ey - e') mod Z.pos my)).
Proof.
  unfold SFdiv, SFdiv_core_binary. rewrite fexp_eq.
  set (e' := Z.min (Z.max (Zdigits2 (Z.pos mx) + ex
                           - (Zdigits2 (Z.pos my) + ey) - 53) emin64)
               (ex - ey)).
  set (s := ex - ey - e').
  assert (Hs : 0 <= s) by (unfold s, e'; lia).
  set (m' := match s with
             | 0 => Z.pos mx
             | Z.pos _ => Z.shiftl (Z.pos mx) s
             | Z.neg _ => 0
             end).
  assert (Hm' : m' = Z.pos mx * 2 ^ s).
  { unfold m'. destruct s as [|k|k] eqn:Es; [lia| |lia].
    now rewrite Z.shiftl_mul_pow2 by lia. }
  assert (Hdiv : Z.div_eucl m' (Z.pos my)
                 = (m' / Z.pos my, m' mod Z.pos my)).
  { unfold Z.div, Z.modulo. now destruct (Z.div_eucl m' (Z.pos my)). }
  rewrite Hdiv, Hm'.
  exists e'. split; reflexivity.
Qed.

(** The quotient of two finite values whose magnitudes are less than 1074
    binary orders apart does not underflow to zero. *)
Lemma SFdiv_finite_nonzero (sx sy : bool) (mx my : positive) (ex ey : Z) :
  emin64 < Zdigits2 (Z.pos mx) + ex - (Zdigits2 (Z.pos my) + ey) ->
  signed_nonzero (xorb sx sy)
    (SFdiv prec emax (S754_finite sx mx ex) (S754_finite sy my ey)).
Proof.
  intros Hg.
  destruct (SFdiv_unfold sx sy mx my ex ey) as (e' & He' & ->).
  assert (Hs : 0 <= ex - ey - e') by lia.
  assert (Ht : 0 <= Zdigits2 (Z.pos mx) + (ex - ey - e')
                    - Zdigits2 (Z.pos my) - 1)
    by (unfold emin64 in *; lia).
  pose proof (div_quotient_lower mx my _ Hs Ht) as Hq.
  pose proof (Zdigits2_gt _ _ Ht Hq) as Hdq.
  pose proof (Z.pow_pos_nonneg 2 _ ltac:(lia) Ht).
  apply signed_nonzero_of_round; lia.
Qed.

Lemma digits2_pos_iter_xO (d m : positive) :
  Z.pos (digits2_pos (Pos.iter xO m d)) = Z.pos (digits2_pos m) + Z.pos d.
Proof.
  induction d as [|d IH] using Pos.peano_ind.
  - simpl. lia.
  - rewrite Pos.iter_succ. simpl digits2_pos. lia.
Qed.

Lemma Zpos_iter_xO (d m : positive) :
  Z.pos (Pos.iter xO m d) = Z.pos m * 2 ^ Z.pos d.
Proof.
  induction d as [|d IH] using Pos.peano_ind.
  - simpl. lia.
  - rewrite Pos.iter_succ, Pos2Z.inj_succ, Z.pow_succ_r by lia.
    rewrite Pos2Z.inj_xO, IH. lia.
Qed.

(** Aligning to a lower exponent keeps value and magnitude. *)
Lemma shl_align_value (m : positive) (e e' : Z) :
  e' <= e ->
  Z.pos (fst (shl_align m e e')) = Z.pos m * 2 ^ (e - e').
Proof.
  intros He. unfold shl_align.
  destruct (e' - e) as [|d|d] eqn:Ed; simpl; try lia.
  - replace (e - e') with 0 by lia. lia.
  - rewrite Zpos_iter_xO. f_equal. f_equal. lia.
Qed.

Lemma shl_align_magnitude (m : positive) (e e' : Z) :
  Zdigits2 (Z.pos (fst (shl_align m e e'))) + snd (shl_align m e e')
  = Zdigits2 (Z.pos m) + e.
Proof.
  unfold shl_align.
  destruct (e' - e) as [|d|d] eqn:Ed; simpl; try reflexivity.
  rewrite digits2_pos_iter_xO. lia.
Qed.

(** Rounding a non-zero integer multiple of a representable power of two. *)
Lemma binary_round_magnitude (s : bool) (m : positive) (e : Z) :
  emin64 <= e ->
  binary_round prec emax s m e = S754_infinity s \/
  exists mf ef,
    binary_round prec emax s m e = S754_finite s mf ef /\
    Zdigits2 (Z.pos m) + e <= Zdigits2 (Z.pos mf) + ef.
Proof.
  intros He. unfold binary_round.
  pose proof (shl_align_magnitude m e
                (fexp prec emax (Z.pos (digits2_pos m) + e))) as Hmag.
  destruct (shl_align m e (fexp prec emax (Z.pos (digits2_pos m) + e)))
    as [mz ez]. simpl in Hmag.
  destruct (Zdigits2_bounds (Z.pos m)) as (Hd & _); [lia|].
  destruct (binary_round_aux_pos s (Z.pos mz) ez loc_Exact)
    as [H|(mf & ef & H & Hle)]; [lia|simpl in *; lia|now left|].
  right. exists mf, ef. split; [exact H|]. simpl in *. lia.
Qed.


Lemma Zdigits2_nonzero (D : Z) : D <> 0 -> 1 <= Zdigits2 D.
Proof. destruct D; simpl; lia. Qed.

Lemma Zdigits2_abs (D : Z) : Zdigits2 (Z.abs D) = Zdigits2 D.
Proof. now destruct D. Qed.

(** What validity says of a finite binary64 value: at most 53 digits, an
    exponent from -1074 to 971, and a full mantissa unless the exponent is
    the lowest one. *)
Lemma valid_finite_bounds (s : bool) (m : positive) (e : Z) :
  valid_binary (S754_finite s m e) = true ->
  emin64 <= e <= 971 /\ Zdigits2 (Z.pos m) <= 53 /\
  Z.pos m < 2 ^ 53 /\ (emin64 < e -> 2 ^ 52 <= Z.pos m).
Proof.
  unfold valid_binary, bounded, canonical_mantissa. rewrite fexp_eq.
  intros H. apply andb_prop in H as [Hc Hb].
  apply Z.eqb_eq in Hc. apply Z.leb_le in Hb.
  change (emax - prec) with 971 in Hb.
  change (Z.pos (digits2_pos m)) with (Zdigits2 (Z.pos m)) in Hc.
  destruct (Zdigits2_bounds (Z.pos m)) as (Hd & Hlo & Hhi); [lia|].
  assert (Hd53 : Zdigits2 (Z.pos m) <= 53) by lia.
  repeat split; try (unfold emin64 in *; lia).
  - assert (2 ^ Zdigits2 (Z.pos m) <= 2 ^ 53)
      by (apply Z.pow_le_mono_r; lia).
    lia.
  - intros He.
    assert (E : Zdigits2 (Z.pos m) = 53) by (unfold emin64 in *; lia).
    rewrite E in Hlo. exact Hlo.
Qed.

(** The exact difference of two finite values, as an integer multiple of
    two to the lower exponent: its sign is the one [SFcompare] reports, and
    it is less than 1074 binary orders below the second operand. *)
Lemma sub_trichotomy (sx sy : bool) (mx my : positive) (ex ey : Z) :
  valid_binary (S754_finite sx mx ex) = true ->
  valid_binary (S754_finite sy my ey) = true ->
  let ez := Z.min ex ey in
  let D := cond_Zopp sx (Z.pos mx * 2 ^ (ex - ez))
           - cond_Zopp sy (Z.pos my * 2 ^ (ey - ez)) in
  match SFcompare (S754_finite sx mx ex) (S754_finite sy my ey) with
  | Some Eq => D = 0
  | Some Lt => D < 0 /\ emin64 + (Zdigits2 (Z.pos my) + ey) < Zdigits2 D + ez
  | Some Gt => 0 < D /\ emin64 + (Zdigits2 (Z.pos my) + ey) < Zdigits2 D + ez
  | None => False
  end.
Proof.
  intros Vx Vy ez D.
  apply valid_finite_bounds in Vx as (Hex & Hdx & Hmx & Hnx).
  apply valid_finite_bounds in Vy as (Hey & Hdy & Hmy & Hny).
  unfold SFcompare.
  change (Pos.compare_cont Eq mx my) with (Pos.compare mx my).
  destruct (Z.compare_spec ex ey) as [Ee|Ee|Ee].
  - (* same exponent: the mantissas decide *)
    assert (HD : D = cond_Zopp sx (Z.pos mx) - cond_Zopp sy (Z.pos my)).
    { unfold D, ez. rewrite Ee, Z.min_id, Z.sub_diag. simpl (2 ^ 0).
      now rewrite !Z.mul_1_r. }
    assert (Hez : ez = ey) by (unfold ez; lia).
    assert (Hmag : D <> 0 ->
              emin64 + (Zdigits2 (Z.pos my) + ey) < Zdigits2 D + ez).
    { intros H0. pose proof (Zdigits2_nonzero D H0). unfold emin64. lia. }
    destruct (Pos.compare_spec mx my) as [Em|Em|Em];
      destruct sx, sy; simpl in HD |- *;
      try (split; [lia|apply Hmag; lia]); lia.
  - (* lower exponent on the left: the right operand dominates *)
    assert (Hez : ez = ex) by (unfold ez; lia).
    set (k := ey - ex).
    assert (Hk : 1 <= k) by (unfold k; lia).
    assert (HP : 2 ^ (ey - ez) = 2 * 2 ^ (k - 1)).
    { rewrite Hez. fold k. rewrite <- Z.pow_succ_r by lia. f_equal. lia. }
    pose proof (Z.pow_pos_nonneg 2 (k - 1) ltac:(lia) ltac:(lia)) as HP1.
    assert (Hbig : 2 ^ 52 * 2 ^ (k - 1) <= Z.pos my * 2 ^ (k - 1))
      by (apply Z.mul_le_mono_nonneg_r; unfold emin64 in *; lia).
    assert (HD : D = cond_Zopp sx (Z.pos mx)
                     - cond_Zopp sy (Z.pos my * (2 * 2 ^ (k - 1)))).
    { unfold D. rewrite HP. rewrite Hez, Z.sub_diag. simpl (2 ^ 0).
      now rewrite Z.mul_1_r. }
    assert (Hmag : 2 ^ (k - 1) <= Z.abs D ->
              emin64 + (Zdigits2 (Z.pos my) + ey) < Zdigits2 D + ez).
    { intros Habs.
      pose proof (Zdigits2_gt (Z.abs D) (k - 1) ltac:(lia) Habs) as Hd.
      rewrite Zdigits2_abs in Hd. unfold k, emin64 in *. lia. }
    destruct sx, sy; simpl in HD |- *;
      (split; [|apply Hmag]); lia.
  - (* higher exponent on the left: the left operand dominates *)
    assert (Hez : ez = ey) by (unfold ez; lia).
    set (k := ex - ey).
    assert (Hk : 1 <= k) by (unfold k; lia).
    assert (HP : 2 ^ (ex - ez) = 2 * 2 ^ (k - 1)).
    { rewrite Hez. fold k. rewrite <- Z.pow_succ_r by lia. f_equal. lia. }
    pose proof (Z.pow_pos_nonneg 2 (k - 1) ltac:(lia) ltac:(lia)) as HP1.
    assert (Hbig : 2 ^ 52 * 2 ^ (k - 1) <= Z.pos mx * 2 ^ (k - 1))
      by (apply Z.mul_le_mono_nonneg_r; unfold emin64 in *; lia).
    assert (HD : D = cond_Zopp sx (Z.pos mx * (2 * 2 ^ (k - 1)))
                     - cond_Zopp sy (Z.pos my)).
    { unfold D. rewrite HP. rewrite Hez, Z.sub_diag. simpl (2 ^ 0).
      now rewrite Z.mul_1_r. }
    assert (Hmag : D <> 0 ->
              emin64 + (Zdigits2 (Z.pos my) + ey) < Zdigits2 D + ez).
    { intros H0. pose proof (Zdigits2_nonzero D H0). unfold emin64. lia. }
    destruct sx, sy; simpl in HD |- *;
      (split; [|apply Hmag]); lia.
Qed.


(** The rounded difference of two finite values has the sign of their
    comparison. *)
Lemma SFsub_finite_cases (sx sy : bool) (mx my : positive) (ex ey : Z) :
  valid_binary (S754_finite sx mx ex) = true ->
  valid_binary (S754_finite sy my ey) = true ->
  let d := SFsub prec emax (S754_finite sx mx ex) (S754_finite sy my ey) in
  match SFcompare (S754_finite sx mx ex) (S754_finite sy my ey) with
  | Some Eq => d = S754_zero false
  | Some Lt => near_nonzero true my ey d
  | Some Gt => near_nonzero false my ey d
  | None => False
  end.
Proof.
  intros Vx Vy d.
  pose proof (sub_trichotomy sx sy mx my ex ey Vx Vy) as H.
  apply valid_finite_bounds in Vx as (Hex & _).
  apply valid_finite_bounds in Vy as (Hey & _).
  unfold d, SFsub.
  rewrite !shl_align_value by lia.
  cbv zeta in H.
  set (D := cond_Zopp sx (Z.pos mx * 2 ^ (ex - Z.min ex ey))
            - cond_Zopp sy (Z.pos my * 2 ^ (ey - Z.min ex ey))) in *.
  assert (Hez : emin64 <= Z.min ex ey) by lia.
  destruct (SFcompare (S754_finite sx mx ex) (S754_finite sy my ey))
    as [[| |]|]; [| | |exact H].
  - now rewrite H.
  - destruct H as [Hneg Hmag]. destruct D as [|p|p]; try lia.
    unfold binary_normalize.
    destruct (binary_round_magnitude true p (Z.min ex ey) Hez)
      as [E|(md & ed & E & Hle)]; rewrite E; [now left|].
    right. exists md, ed. split; [reflexivity|].
    change (Zdigits2 (Z.neg p)) with (Zdigits2 (Z.pos p)) in Hmag. lia.
  - destruct H as [Hpos Hmag]. destruct D as [|p|p]; try lia.
    unfold binary_normalize.
    destruct (binary_round_magnitude false p (Z.min ex ey) Hez)
      as [E|(md & ed & E & Hle)]; rewrite E; [now left|].
    right. exists md, ed. split; [reflexivity|]. lia.
Qed.

(** The sign of [(x - y) / y] for a finite non-zero [y]: it is the sign of
    [y] when [x] is above [y], the opposite sign when [x] is below, and the
    quotient is a zero exactly when the two are equal. *)
Lemma SFratio_sign (x : spec_float) (sy : bool) (my : positive) (ey : Z) :
  valid_binary x = true ->
  valid_binary (S754_finite sy my ey) = true ->
  let y := S754_finite sy my ey in
  let r := SFdiv prec emax (SFsub prec emax x y) y in
  match SFcompare x y with
  | Some Eq => exists s, r = S754_zero s
  | Some Lt => signed_nonzero (negb sy) r
  | Some Gt => signed_nonzero sy r
  | None => r = S754_nan
  end.
Proof.
  intros Vx Vy y r.
  assert (Hself : emin64
                  < Zdigits2 (Z.pos my) + ey - (Zdigits2 (Z.pos my) + ey))
    by (unfold emin64; lia).
  destruct x as [sx|sx| |sx mx ex].
  - pose proof (SFdiv_finite_nonzero (negb sy) sy my my ey ey Hself) as H.
    unfold r, y. simpl SFsub. simpl SFcompare. now destruct sy.
  - unfold r, y. simpl. destruct sx, sy; now left.
  - reflexivity.
  - pose proof (SFsub_finite_cases sx sy mx my ex ey Vx Vy) as H.
    cbv zeta in H. unfold r, y.
    destruct (SFcompare (S754_finite sx mx ex) (S754_finite sy my ey))
      as [[| |]|]; [| | |contradiction].
    + rewrite H. simpl. now eexists.
    + destruct H as [E|(md & ed & E & Hmag)]; rewrite E.
      * simpl. now left.
      * apply (SFdiv_finite_nonzero true sy md my ed ey). lia.
    + destruct H as [E|(md & ed & E & Hmag)]; rewrite E.
      * simpl. now left.
      * apply (SFdiv_finite_nonzero false sy md my ed ey). lia.
Qed.

Lemma SFcompare_antisym (x y : spec_float) :
  SFcompare y x = option_map CompOpp (SFcompare x y).
Proof.
  destruct x as [[]|[]| |[] mx ex], y as [[]|[]| |[] my ey];
    simpl; try reflexivity;
    change (Pos.compare_cont Eq mx my) with (Pos.compare mx my);
    change (Pos.compare_cont Eq my mx) with (Pos.compare my mx);
    rewrite (Z.compare_antisym ex ey), (Pos.compare_antisym mx my);
    now destruct (ex ?= ey), (mx ?= my)%positive.
Qed.


(** The canonical shift drops some number [k] of low digits. *)
Lemma shr_fexp_shift (m e : Z) (l : location) :
  0 < m -> emin64 < Zdigits2 m + e ->
  exists k, 0 <= k /\
            snd (shr_fexp prec emax m e l) = e + k /\
            shr_m (fst (shr_fexp prec emax m e l)) = m / 2 ^ k.
Proof.
  intros Hm HG. unfold shr_fexp, shr. rewrite fexp_eq.
  destruct (Z.max (Zdigits2 m + e - 53) emin64 - e) as [|n|n] eqn:En; simpl;
    rewrite ?shr_m_record_of_loc.
  - exists 0. rewrite Z.div_1_r. lia.
  - exists (Z.pos n).
    rewrite shr_m_iter by (rewrite shr_m_record_of_loc; lia).
    rewrite shr_m_record_of_loc. lia.
  - exists 0. rewrite Z.div_1_r. lia.
Qed.

(** Rounding never goes below the truncation of its argument: the result
    is the mantissa with some [k] low digits dropped, or more. *)
Lemma binary_round_aux_lower (s : bool) (m e : Z) (l : location) :
  0 < m -> emin64 < Zdigits2 m + e ->
  binary_round_aux prec emax s m e l = S754_infinity s \/
  exists mf ef k,
    binary_round_aux prec emax s m e l = S754_finite s mf ef /\
    0 <= k /\ ef = e + k /\ m / 2 ^ k <= Z.pos mf.
Proof.
  intros Hm HG. unfold binary_round_aux.
  pose proof (shr_fexp_pos m e l Hm HG) as H1.
  destruct (shr_fexp_shift m e l Hm HG) as (k1 & Hk1 & He1 & Ht).
  destruct (shr_fexp prec emax m e l) as [mrs e1]. simpl in H1, He1, Ht.
  destruct H1 as [Hpos Hmag].
  pose proof (round_nearest_even_ge (shr_m mrs) (loc_of_shr_record mrs)) as Hge.
  set (m1 := round_nearest_even (shr_m mrs) (loc_of_shr_record mrs)) in *.
  assert (Hm1 : 0 < m1) by lia.
  pose proof (Zdigits2_mono (shr_m mrs) m1 Hpos Hge) as Hdig.
  assert (HG1 : emin64 < Zdigits2 m1 + e1) by lia.
  destruct (shr_fexp_shift m1 e1 loc_Exact Hm1 HG1) as (k2 & Hk2 & He2 & Hf).
  pose proof (shr_fexp_pos m1 e1 loc_Exact Hm1 HG1) as H2.
  destruct (shr_fexp prec emax m1 e1 loc_Exact) as [mrs2 e2].
  simpl in H2, He2, Hf. destruct H2 as [Hpos2 _].
  destruct (shr_m mrs2) as [|mf|mf]; try lia.
  destruct (e2 <=? emax - prec); [right|now left].
  exists mf, e2, (k1 + k2). split; [reflexivity|].
  split; [lia|]. split; [lia|].
  rewrite Hf, Z.pow_add_r, <- Z.div_div by (try apply Z.pow_pos_nonneg; lia).
  rewrite <- Ht. apply Z.div_le_mono; [apply Z.pow_pos_nonneg; lia|lia].
Qed.

(** Among valid positive finite values, [SFleb] is the order of the values,
    here compared as integers at the lower of the two exponents. *)
Lemma SFleb_value (ma mb : positive) (ea eb : Z) :
  valid_binary (S754_finite false ma ea) = true ->
  valid_binary (S754_finite false mb eb) = true ->
  SFleb (S754_finite false ma ea) (S754_finite false mb eb) = true ->
  Z.pos ma * 2 ^ (ea - Z.min ea eb) <= Z.pos mb * 2 ^ (eb - Z.min ea eb).
Proof.
  intros Va Vb Hle.
  pose proof (sub_trichotomy false false ma mb ea eb Va Vb) as H.
  cbv zeta in H. unfold SFleb in Hle. simpl cond_Zopp in H.
  destruct (SFcompare (S754_finite false ma ea) (S754_finite false mb eb))
    as [[| |]|]; try discriminate; lia.
Qed.


(** Division is monotone against representable thresholds: when the value
    of [c] times the value of [y] is at most the value of [x], the rounded
    quotient [x / y] is at least [c]. *)
Lemma SFdiv_ge (mx my c : positive) (ex ey ec : Z) :
  valid_binary (S754_finite false mx ex) = true ->
  valid_binary (S754_finite false my ey) = true ->
  valid_binary (S754_finite false c ec) = true ->
  valid_binary (SFdiv prec emax (S754_finite false mx ex)
                  (S754_finite false my ey)) = true ->
  Z.pos c * Z.pos my * 2 ^ (ec + ey + 2148) <= Z.pos mx * 2 ^ (ex + 2148) ->
  SFleb (S754_finite false c ec)
    (SFdiv prec emax (S754_finite false mx ex) (S754_finite false my ey))
  = true.
Proof.
  intros Vx Vy Vc Vr Hval.
  destruct (SFdiv_unfold false false mx my ex ey) as (e' & He' & Hr).
  rewrite Hr in *. clear Hr. simpl xorb in *.
  set (l := new_location (Z.pos my)
              (Z.pos mx * 2 ^ (ex - ey - e') mod Z.pos my)) in *.
  apply valid_finite_bounds in Vx as (Hex & Hdx & _).
  apply valid_finite_bounds in Vy as (Hey & Hdy & _).
  apply valid_finite_bounds in Vc as (Hec & Hdc & Hcm & Hcn).
  set (s := ex - ey - e') in *.
  set (q := Z.pos mx * 2 ^ s / Z.pos my) in *.
  assert (Hs : 0 <= s) by (unfold s; lia).
  destruct (Z.le_gt_cases e' ec) as [Hle|Hgt].
  - (* the threshold lies on the grid of the quotient *)
    pose proof (Z.pow_pos_nonneg 2 (ec - e') ltac:(lia) ltac:(lia)) as Hp1.
    assert (Hcq : Z.pos c * 2 ^ (ec - e') <= q).
    { unfold q. apply Z.div_le_lower_bound; [lia|].
      assert (Hoff : 0 <= ey + e' + 2148) by (unfold emin64 in *; lia).
      pose proof (Z.pow_pos_nonneg 2 (ey + e' + 2148) ltac:(lia) Hoff) as HP.
      replace (ec + ey + 2148) with ((ec - e') + (ey + e' + 2148)) in Hval
        by lia.
      replace (ex + 2148) with (s + (ey + e' + 2148)) in Hval
        by (unfold s; lia).
      rewrite (Z.pow_add_r 2 (ec - e') (ey + e' + 2148)),
        (Z.pow_add_r 2 s (ey + e' + 2148)) in Hval by lia.
      apply (Z.mul_le_mono_pos_r _ _ (2 ^ (ey + e' + 2148))); [exact HP|].
      replace (Z.pos my * (Z.pos c * 2 ^ (ec - e')) * 2 ^ (ey + e' + 2148))
        with (Z.pos c * Z.pos my * (2 ^ (ec - e') * 2 ^ (ey + e' + 2148)))
        by ring.
      replace (Z.pos mx * 2 ^ s * 2 ^ (ey + e' + 2148))
        with (Z.pos mx * (2 ^ s * 2 ^ (ey + e' + 2148))) by ring.
      exact Hval. }
    assert (Hq0 : 0 < q) by nia.
    assert (Hdq : ec - e' < Zdigits2 q)
      by (apply Zdigits2_gt; [lia|nia]).
    destruct (binary_round_aux_lower false q e' l Hq0)
      as [E|(mf & ef & k & E & Hk & Hef & Hmf)];
      [unfold emin64 in *; lia|now rewrite E|].
    rewrite E in *.
    apply valid_finite_bounds in Vr as (Hefb & _ & Hmfb & _).
    pose proof (Z.pow_pos_nonneg 2 k ltac:(lia) Hk) as Hpk.
    unfold SFleb, SFcompare.
    change (Pos.compare_cont Eq c mf) with (Pos.compare c mf).
    destruct (Z.compare_spec ec ef) as [Ee|Ee|Ee]; [|reflexivity|].
    + assert (Hc : Z.pos c <= q / 2 ^ k).
      { apply Z.div_le_lower_bound; [lia|].
        replace k with (ec - e') by lia. lia. }
      destruct (Pos.compare_spec c mf); try reflexivity. lia.
    + exfalso.
      assert (Hc52 : 2 ^ 52 <= Z.pos c) by (apply Hcn; lia).
      assert (Hpow : 2 * 2 ^ k <= 2 ^ (ec - e')).
      { rewrite <- Z.pow_succ_r by lia. apply Z.pow_le_mono_r; lia. }
      assert (Hc : 2 * Z.pos c <= q / 2 ^ k).
      { apply Z.div_le_lower_bound; [lia|]. nia. }
      lia.
  - (* the quotient is rounded at a higher exponent than the threshold *)
    assert (Ht : 0 <= Zdigits2 (Z.pos mx) + s - Zdigits2 (Z.pos my) - 1)
      by (unfold s, emin64 in *; lia).
    pose proof (div_quotient_lower mx my s Hs Ht) as Hq. fold q in Hq.
    pose proof (Z.pow_pos_nonneg 2 _ ltac:(lia) Ht) as Hpt.
    assert (Hq0 : 0 < q) by lia.
    pose proof (Zdigits2_nonzero q ltac:(lia)) as Hdq.
    destruct (binary_round_aux_lower false q e' l Hq0)
      as [E|(mf & ef & k & E & Hk & Hef & Hmf)];
      [lia|now rewrite E|].
    rewrite E. unfold SFleb, SFcompare.
    destruct (Z.compare_spec ec ef) as [Ee|Ee|Ee]; [lia|reflexivity|lia].
Qed.


(** Dividing by [b] sends everything from [a] upwards to [c] or above, when
    [a] is exactly [c] times [b]. *)
Lemma SFdiv_threshold (ma mb mc mt : positive) (ea eb ec et : Z) :
  valid_binary (S754_finite false ma ea) = true ->
  valid_binary (S754_finite false mb eb) = true ->
  valid_binary (S754_finite false mc ec) = true ->
  valid_binary (S754_finite false mt et) = true ->
  valid_binary (SFdiv prec emax (S754_finite false mt et)
                  (S754_finite false mb eb)) = true ->
  Z.pos ma * 2 ^ (ea + 2148) = Z.pos mc * Z.pos mb * 2 ^ (ec + eb + 2148) ->
  SFleb (S754_finite false ma ea) (S754_finite false mt et) = true ->
  SFleb (S754_finite false mc ec)
    (SFdiv prec emax (S754_finite false mt et) (S754_finite false mb eb))
  = true.
Proof.
  intros Va Vb Vc Vt Vr Hprod Hle.
  apply SFdiv_ge; try assumption.
  rewrite <- Hprod.
  pose proof (SFleb_value ma mt ea et Va Vt Hle) as Hv.
  apply valid_finite_bounds in Va as (Hea & _).
  apply valid_finite_bounds in Vt as (Het & _).
  set (z := Z.min ea et) in *.
  assert (Hz : 0 <= z + 2148) by (unfold z, emin64 in *; lia).
  pose proof (Z.pow_pos_nonneg 2 (z + 2148) ltac:(lia) Hz) as HP.
  replace (ea + 2148) with ((ea - z) + (z + 2148)) by lia.
  replace (et + 2148) with ((et - z) + (z + 2148)) by lia.
  rewrite (Z.pow_add_r 2 (ea - z)), (Z.pow_add_r 2 (et - z))
    by (unfold z; lia).
  rewrite !Z.mul_assoc. apply Z.mul_le_mono_nonneg_r; lia.
Qed.

End Rounding.

(** ** The divergence ratio and the two colour rules *)

Section Classification.

Local Open Scope float_scope.

(** C1: the divergence ratio of a row is
    [(freshPrice - lastOnChainPrice) / lastOnChainPrice] when the on-chain
    price is not [0], and exactly [0] when it is [0] (either zero of
    binary64), whatever the reference price. *)
Theorem diffRatio_contract (r : OracleRow) :
  ((lastOnChainPrice r =? 0) = false ->
     diffRatio r
     = (freshPrice r - lastOnChainPrice r) / lastOnChainPrice r) /\
  ((lastOnChainPrice r =? 0) = true -> diffRatio r = 0) /\
  (lastOnChainPrice r = 0 \/ lastOnChainPrice r = (-0) -> diffRatio r = 0).
Proof.
  unfold diffRatio. repeat split.
  - now intros ->.
  - now intros ->.
  - intros H. apply eqb_zero_iff in H. now rewrite H.
Qed.

Lemma diffRatio_contract_witness :
  let mk p f := {| oracle := Build_Oracle "ETH/USD" "0xA" "0xfeed";
                   lastOnChainPrice := p; freshPrice := f;
                   lastUpdateTime := 0; isUpdating := false |} in
  diffRatio (mk 2500 2501) = (2501 - 2500) / 2500 /\
  diffRatio (mk 0 2501) = 0 /\
  diffRatio (mk (-0) 2501) = 0.
Proof.
  intros mk. split; [|split].
  - exact (proj1 (diffRatio_contract (mk 2500 2501)) eq_refl).
  - exact (proj1 (proj2 (diffRatio_contract (mk 0 2501))) eq_refl).
  - exact (proj2 (proj2 (diffRatio_contract (mk (-0) 2501)))
             (or_intror eq_refl)).
Defined.

Lemma colorTime_from_30 (minutes : float) :
  (30 <=? minutes) = true -> colorTime minutes = "red".
Proof.
  intros H30. unfold colorTime.
  rewrite (ltb_leb_trans_false 15 30 minutes eq_refl H30).
  now rewrite (leb_ltb_false _ _ H30).
Qed.

(** C2: [colorTime] sends every value below 15 to FRESH, every value from
    15 up to but excluding 30 to AGING and every value from 30 on to STALE;
    15 itself is AGING and 30 itself is STALE; a negative value is treated
    like any other and is FRESH. *)
Theorem colorTime_thresholds (minutes : float) :
  ((minutes <? 15) = true -> colorTime minutes = FRESH) /\
  ((15 <=? minutes) = true -> (minutes <? 30) = true ->
     colorTime minutes = AGING) /\
  ((30 <=? minutes) = true -> colorTime minutes = STALE) /\
  ((minutes <? 0) = true -> colorTime minutes = FRESH) /\
  colorTime 14.999 = FRESH /\ colorTime 15 = AGING /\
  colorTime 29.999 = AGING /\ colorTime 30 = STALE.
Proof.
  unfold colorTime. repeat split.
  - now intros ->.
  - intros H15 H30. now rewrite (leb_ltb_false _ _ H15), H30.
  - apply colorTime_from_30.
  - intros H0. now rewrite (ltb_trans minutes 0 15 H0 eq_refl).
Qed.

Lemma colorTime_thresholds_witness :
  colorTime 3 = FRESH /\ colorTime 20 = AGING /\
  colorTime 45 = STALE /\ colorTime (-5) = FRESH.
Proof.
  split; [|split; [|split]].
  - exact (proj1 (colorTime_thresholds 3) eq_refl).
  - exact (proj1 (proj2 (colorTime_thresholds 20)) eq_refl eq_refl).
  - exact (proj1 (proj2 (proj2 (colorTime_thresholds 45))) eq_refl).
  - exact (proj1 (proj2 (proj2 (proj2 (colorTime_thresholds (-5)))))
             eq_refl).
Defined.

(** C3: [colorDiff] sends every ratio of absolute value below 0.02 to
    ALIGNED and every other ratio to DIVERGENT; it gives the same class to
    [x] and [-x]; 0.0199 is ALIGNED and 0.02 is DIVERGENT. *)
Theorem colorDiff_thresholds (x : float) :
  ((abs x <? 0.02) = true -> colorDiff x = ALIGNED) /\
  ((abs x <? 0.02) = false -> colorDiff x = DIVERGENT) /\
  colorDiff x = colorDiff (- x) /\
  colorDiff 0.0199 = ALIGNED /\ colorDiff 0.02 = DIVERGENT /\
  colorDiff (-0.0199) = ALIGNED /\ colorDiff (-0.02) = DIVERGENT.
Proof.
  unfold colorDiff. repeat split.
  - now intros ->.
  - now intros ->.
  - now rewrite abs_opp.
Qed.

Lemma colorDiff_thresholds_witness :
  colorDiff 0.0004 = ALIGNED /\ colorDiff (-1) = DIVERGENT.
Proof.
  split.
  - exact (proj1 (colorDiff_thresholds 0.0004) eq_refl).
  - exact (proj1 (proj2 (colorDiff_thresholds (-1))) eq_refl).
Defined.

End Classification.

(** ** The sign of the divergence ratio *)

Section DivergenceSign.

Local Open Scope float_scope.

Lemma SFltb_zero_signed_nonzero (s : bool) (q : spec_float) :
  signed_nonzero s q ->
  SFltb (S754_zero false) q = negb s /\ SFltb q (S754_zero false) = s.
Proof. intros [->|(m & e & ->)]; now destruct s. Qed.

(** The signs of [(f - p) / p] for a finite non-zero [p] of sign [sy]. *)
Lemma ratio_sign (p f : float) (sy : bool) (my : positive) (ey : Z) :
  Prim2SF p = S754_finite sy my ey ->
  (0 <? (f - p) / p) = (if sy then f <? p else p <? f) /\
  ((f - p) / p <? 0) = (if sy then p <? f else f <? p).
Proof.
  intros Hp. rewrite !ltb_spec, div_spec, sub_spec.
  unfold SF64div, SF64sub. rewrite Hp.
  change (Prim2SF 0) with (S754_zero false).
  assert (Vy : valid_binary (S754_finite sy my ey) = true)
    by (rewrite <- Hp; apply Prim2SF_valid).
  pose proof (SFratio_sign (Prim2SF f) sy my ey (Prim2SF_valid f) Vy) as H.
  cbv zeta in H.
  set (q := SFdiv prec emax
              (SFsub prec emax (Prim2SF f) (S754_finite sy my ey))
              (S754_finite sy my ey)) in *.
  unfold SFltb at 2 3 5 6.
  rewrite (SFcompare_antisym (Prim2SF f) (S754_finite sy my ey)).
  destruct (SFcompare (Prim2SF f) (S754_finite sy my ey)) as [[| |]|]; simpl.
  - destruct H as [s ->]. now destruct sy.
  - apply SFltb_zero_signed_nonzero in H as [-> ->]. now destruct sy.
  - apply SFltb_zero_signed_nonzero in H as [-> ->]. now destruct sy.
  - rewrite H. now destruct sy.
Qed.

Lemma finite_positive (p : float) :
  (0 <? p) = true -> (p <? infinity) = true ->
  exists m e, Prim2SF p = S754_finite false m e.
Proof.
  rewrite !ltb_spec.
  change (Prim2SF 0) with (S754_zero false).
  change (Prim2SF infinity) with (S754_infinity false).
  destruct (Prim2SF p) as [[]|[]| |[] m e]; try discriminate.
  intros _ _. now exists m, e.
Qed.

Lemma finite_negative (p : float) :
  (p <? 0) = true -> (neg_infinity <? p) = true ->
  exists m e, Prim2SF p = S754_finite true m e.
Proof.
  rewrite !ltb_spec.
  change (Prim2SF 0) with (S754_zero false).
  change (Prim2SF neg_infinity) with (S754_infinity true).
  destruct (Prim2SF p) as [[]|[]| |[] m e]; try discriminate.
  intros _ _. now exists m, e.
Qed.

Lemma eqb_zero_finite (p : float) (s : bool) (m : positive) (e : Z) :
  Prim2SF p = S754_finite s m e -> (p =? 0) = false.
Proof.
  intros Hp. rewrite eqb_spec, Hp.
  change (Prim2SF 0) with (S754_zero false). now destruct s.
Qed.

(** C8, as amended: for every finite on-chain price above 0 and every
    reference price, the divergence ratio is positive exactly when the
    reference price is higher than the on-chain price and negative exactly
    when it is lower; for a finite on-chain price below 0 the two signs are
    exchanged. *)
Theorem diffRatio_sign (r : OracleRow) :
  ((0 <? lastOnChainPrice r) = true ->
   (lastOnChainPrice r <? infinity) = true ->
   (0 <? diffRatio r) = (lastOnChainPrice r <? freshPrice r) /\
   (diffRatio r <? 0) = (freshPrice r <? lastOnChainPrice r)) /\
  ((lastOnChainPrice r <? 0) = true ->
   (neg_infinity <? lastOnChainPrice r) = true ->
   (0 <? diffRatio r) = (freshPrice r <? lastOnChainPrice r) /\
   (diffRatio r <? 0) = (lastOnChainPrice r <? freshPrice r)).
Proof.
  unfold diffRatio. split; intros H0 Hfin.
  - destruct (finite_positive _ H0 Hfin) as (m & e & Hp).
    rewrite (eqb_zero_finite _ _ _ _ Hp).
    exact (ratio_sign _ (freshPrice r) false m e Hp).
  - destruct (finite_negative _ H0 Hfin) as (m & e & Hp).
    rewrite (eqb_zero_finite _ _ _ _ Hp).
    exact (ratio_sign _ (freshPrice r) true m e Hp).
Qed.

Lemma diffRatio_sign_witness :
  let mk p f := {| oracle := ethUsd; lastOnChainPrice := p; freshPrice := f;
                   lastUpdateTime := 1762041000; isUpdating := false |} in
  (0 <? diffRatio (mk 2500 2501)) = true /\
  (diffRatio (mk 2500 2499) <? 0) = true /\
  (diffRatio (mk (-1) 1) <? 0) = true.
Proof.
  intros mk. split; [|split].
  - exact (proj1 (proj1 (diffRatio_sign (mk 2500 2501)) eq_refl eq_refl)).
  - exact (proj2 (proj1 (diffRatio_sign (mk 2500 2499)) eq_refl eq_refl)).
  - exact (proj2 (proj2 (diffRatio_sign (mk (-1) 1)) eq_refl eq_refl)).
Defined.

(** C8 as stated fails: the wrapper answers -100000000, an on-chain price
    of -1; the reference price 1 is higher, yet the ratio is -2. *)
Lemma negative_on_chain_price_flips_sign :
  let a := {| probed := ethUsd; hermes := hermesPrice "100000000" (-8);
              chain := roundOf (-100000000) 1762041000 |} in
  exists r, loadData [a] !! 0%nat = Some r /\
            lastOnChainPrice r = -1 /\ freshPrice r = 1 /\
            (lastOnChainPrice r =? 0) = false /\
            (lastOnChainPrice r <? freshPrice r) = true /\
            diffRatio r = -2 /\
            (0 <? diffRatio r) = false /\
            (diffRatio r <? 0) = true.
Proof.
  intros a. eexists. split; [reflexivity|]. now vm_compute.
Qed.

(** Against an infinite on-chain price the ratio is NaN, which has no
    sign. *)
Example infinite_on_chain_price_has_no_sign :
  let r := {| oracle := ethUsd; lastOnChainPrice := infinity; freshPrice := 1;
              lastUpdateTime := 1762041000; isUpdating := false |} in
  (freshPrice r <? lastOnChainPrice r) = true /\
  diffRatio r = nan /\
  (diffRatio r <? 0) = false /\ (0 <? diffRatio r) = false.
Proof. now vm_compute. Qed.

End DivergenceSign.

(** ** Shape of the rows of a refresh *)

Section Refresh.

Implicit Types (ps : list Probe) (p : Probe) (hermesMap : gmap string float).

(** The [push] loop builds the rows of the oracles in order. *)
Lemma readChain_map hermesMap ps :
  readChain hermesMap ps = map (rowOf hermesMap) ps.
Proof.
  unfold readChain.
  enough (G : forall acc,
             fold_left (fun newRows p => (newRows ++ [rowOf hermesMap p])%list)
               ps acc
             = (acc ++ map (rowOf hermesMap) ps)%list) by apply (G []).
  induction ps as [|p ps IH]; intros acc; simpl.
  - now rewrite app_nil_r.
  - now rewrite IH, <- app_assoc.
Qed.

Lemma loadData_map ps :
  loadData ps = map (rowOf (fetchHermes ps)) ps.
Proof. apply readChain_map. Qed.

Lemma oracle_rowOf hermesMap p : oracle (rowOf hermesMap p) = probed p.
Proof. unfold rowOf. now destruct (chain p). Qed.

Lemma isUpdating_rowOf hermesMap p : isUpdating (rowOf hermesMap p) = false.
Proof. unfold rowOf. now destruct (chain p). Qed.

Lemma loadData_lookup ps (i : nat) :
  loadData ps !! i = rowOf (fetchHermes ps) <$> ps !! i.
Proof. rewrite loadData_map. apply list_lookup_fmap. Qed.

Lemma loadData_length ps : List.length (loadData ps) = List.length ps.
Proof. rewrite loadData_map. apply length_map. Qed.

Lemma loadData_read_failure ps (i : nat) p :
  ps !! i = Some p ->
  chain p = ReadThrows ->
  loadData ps !! i = Some (zeroRow (probed p)).
Proof.
  intros Hi Hc. rewrite loadData_lookup, Hi. simpl. unfold rowOf.
  now rewrite Hc.
Qed.

(** C6: whatever the network answers, a refresh produces exactly one row
    per configured oracle, and the row at each position is the row of the
    oracle configured at that position. *)
Theorem loadData_one_row_per_oracle_in_order ps :
  List.length (loadData ps) = List.length ps /\
  map oracle (loadData ps) = map probed ps /\
  forall (i : nat), oracle <$> loadData ps !! i = probed <$> ps !! i.
Proof.
  split; [apply loadData_length|]. rewrite loadData_map. split.
  - rewrite map_map. apply map_ext. intros p. apply oracle_rowOf.
  - intros i. rewrite list_lookup_fmap.
    destruct (ps !! i) as [p|]; simpl; [|reflexivity].
    now rewrite oracle_rowOf.
Qed.

(** C10: every row produced by a refresh has [isUpdating = false], whether
    the reads for its feed succeeded or failed. *)
Theorem loadData_never_updating ps :
  Forall (fun r => isUpdating r = false) (loadData ps).
Proof.
  rewrite loadData_map. generalize (fetchHermes ps). intros hermesMap.
  induction ps as [|p ps IH]; simpl; constructor.
  - apply isUpdating_rowOf.
  - exact IH.
Qed.

End Refresh.

(** ** The Hermes map *)

Section HermesMap.

Implicit Types (ps : list Probe) (p : Probe) (hermesMap : gmap string float).

(** The last write wins: when every probe of feed [k] stores [v], the map
    holds [v] for [k]. *)
Lemma fold_hermesStep_lookup ps hermesMap (k : string) (v : float) :
  (forall q, q ∈ ps -> feedOf q = k -> freshPriceOf (hermes q) = v) ->
  (exists q, q ∈ ps /\ feedOf q = k) ->
  fold_left hermesStep ps hermesMap !! k = Some v.
Proof.
  induction ps as [|p ps IH] using rev_ind; intros Hall (q & Hq & Hk).
  - now apply elem_of_nil in Hq.
  - rewrite fold_left_app. simpl. unfold hermesStep at 1.
    destruct (decide (feedOf p = k)) as [Hp|Hp].
    + unfold feedOf in Hp. rewrite Hp, lookup_insert_eq. f_equal.
      apply Hall; [|exact Hp]. apply elem_of_app. right.
      now apply list_elem_of_singleton.
    + unfold feedOf in Hp. rewrite lookup_insert_ne by exact Hp.
      apply IH.
      * intros q' Hq'. apply Hall. apply elem_of_app. now left.
      * apply elem_of_app in Hq as [Hq|Hq]; [now exists q|].
        apply list_elem_of_singleton in Hq. now subst q.
Qed.

(** When the same feed always gets the same answer, the map holds for every
    oracle the price fetched for it. *)
Lemma fetchHermes_lookup ps p :
  sameAnswerPerFeed ps ->
  p ∈ ps ->
  fetchHermes ps !! feedOf p = Some (freshPriceOf (hermes p)).
Proof.
  intros Hsame Hp. apply fold_hermesStep_lookup.
  - intros q Hq Hk. now rewrite (Hsame q p Hq Hp Hk).
  - now exists p.
Qed.

(** Pairwise distinct feed identifiers are the plain case. *)
Lemma NoDup_sameAnswerPerFeed ps :
  NoDup (map feedOf ps) -> sameAnswerPerFeed ps.
Proof.
  intros Hnd p q Hp Hq Hk.
  apply list_elem_of_lookup in Hp as [i Hi].
  apply list_elem_of_lookup in Hq as [j Hj].
  change (map feedOf ps) with (feedOf <$> ps) in Hnd.
  assert (Hij : i = j).
  { apply (NoDup_lookup _ i j (feedOf p) Hnd).
    - now rewrite list_lookup_fmap, Hi.
    - now rewrite list_lookup_fmap, Hj, Hk. }
  subst j. rewrite Hi in Hj. now injection Hj as ->.
Qed.

(** The map does not depend on the contract reads. *)
Lemma fold_hermesStep_insert_chain ps hermesMap (i : nat) p c :
  ps !! i = Some p ->
  fold_left hermesStep
    (<[i := {| probed := probed p; hermes := hermes p; chain := c |}]> ps)
    hermesMap
  = fold_left hermesStep ps hermesMap.
Proof.
  revert hermesMap i.
  induction ps as [|q ps IH]; intros hermesMap i Hi; [done|].
  destruct i as [|i]; simpl in *.
  - now injection Hi as ->.
  - now apply IH.
Qed.

End HermesMap.

Lemma float_neq_by_spec (x y : float) : Prim2SF x <> Prim2SF y -> x <> y.
Proof. intros H E. apply H. now rewrite E. Qed.

(** ** Failures of one feed *)

Section PartialFailure.

Local Open Scope float_scope.
Implicit Types (ps : list Probe) (p q : Probe).

(** C4, as amended: when the on-chain read of a feed fails, its row carries
    the zero pair (price 0, update time 0) and its reference price is 0 as
    well, the fetched reference price being dropped; the rows of the
    other feeds are the same as they would be had the read answered
    anything else. *)
Theorem read_failure_zeroes_row ps (i : nat) p :
  ps !! i = Some p ->
  chain p = ReadThrows ->
  loadData ps !! i = Some (zeroRow (probed p)) /\
  forall (c : ReadOutcome) (j : nat),
    j <> i ->
    loadData (<[i := withChain p c]> ps) !! j = loadData ps !! j.
Proof.
  intros Hi Hc. split.
  - now apply loadData_read_failure.
  - intros c j Hj. rewrite !loadData_lookup. unfold fetchHermes, withChain.
    rewrite fold_hermesStep_insert_chain by exact Hi.
    now rewrite list_lookup_insert_ne by auto.
Qed.

Lemma read_failure_zeroes_row_witness :
  let a := {| probed := ethUsd; hermes := hermesPrice "25010000000" (-7);
              chain := ReadThrows |} in
  let b := {| probed := btcUsd; hermes := hermesPrice "9700000000000" (-8);
              chain := roundOf 9690000000000 1762041000 |} in
  loadData [a; b] !! 0%nat = Some (zeroRow ethUsd) /\
  loadData [withChain a (roundOf 250000000000 1762041000); b] !! 1%nat
  = loadData [a; b] !! 1%nat.
Proof.
  intros a b.
  pose proof (read_failure_zeroes_row [a; b] 0 a eq_refl eq_refl) as [H1 H2].
  split.
  - exact H1.
  - apply (H2 (roundOf 250000000000 1762041000) 1%nat). discriminate.
Defined.

(** C4 as stated fails: the reference fetch of the feed succeeded with
    2501, its on-chain read failed, and the row holds 0 as reference
    price. *)
Lemma read_failure_drops_reference_price :
  let a := {| probed := ethUsd; hermes := hermesPrice "25010000000" (-7);
              chain := ReadThrows |} in
  freshPriceOf (hermes a) = 2501 /\
  exists r, loadData [a] !! 0%nat = Some r /\
            lastOnChainPrice r = 0 /\ lastUpdateTime r = 0 /\
            freshPrice r = 0 /\
            freshPrice r <> freshPriceOf (hermes a).
Proof.
  intros a. split; [reflexivity|].
  exists (zeroRow ethUsd). repeat split.
  apply float_neq_by_spec. vm_compute. discriminate.
Qed.

Lemma freshPriceOf_failed resp : hermesFailed resp -> freshPriceOf resp = 0.
Proof. now destruct resp. Qed.

(** C7, as amended: provided the oracles that share a feed identifier get
    the same answer from the reference source during the refresh, as they
    do when the configured identifiers are pairwise distinct, if the
    reference fetch of one feed fails, there is still one row per feed; the
    row of the failed feed has reference price 0, and with an on-chain
    price of 2500 its divergence ratio is -1, which is DIVERGENT; the row
    of every feed whose two reads succeeded holds the fetched values. *)
Theorem reference_failure_is_isolated ps (i : nat) p :
  sameAnswerPerFeed ps ->
  ps !! i = Some p ->
  hermesFailed (hermes p) ->
  List.length (loadData ps) = List.length ps /\
  (exists r, loadData ps !! i = Some r /\ oracle r = probed p /\
             freshPrice r = 0) /\
  (forall round, chain p = ReadOk round -> answer round = 250000000000%Z ->
     exists r, loadData ps !! i = Some r /\
               lastOnChainPrice r = 2500 /\ freshPrice r = 0 /\
               diffRatio r = -1 /\ colorDiff (diffRatio r) = DIVERGENT) /\
  (forall (j : nat) q data round,
     ps !! j = Some q ->
     hermes q = HermesOk data ->
     chain q = ReadOk round ->
     loadData ps !! j = Some (fetchedRow (probed q) data round)).
Proof.
  intros Hnd Hi Hfail.
  assert (Hrow : loadData ps !! i = Some (rowOf (fetchHermes ps) p))
    by now rewrite loadData_lookup, Hi.
  assert (Hfresh : freshPrice (rowOf (fetchHermes ps) p) = 0).
  { unfold rowOf. destruct (chain p); [reflexivity|]. simpl.
    change (pythFeedId (probed p)) with (feedOf p).
    rewrite (fetchHermes_lookup ps p Hnd (list_elem_of_lookup_2 _ _ _ Hi)).
    simpl.
    now apply freshPriceOf_failed. }
  split; [|split; [|split]].
  - apply loadData_length.
  - exists (rowOf (fetchHermes ps) p).
    split; [exact Hrow|]. split; [apply oracle_rowOf|exact Hfresh].
  - intros round Hc Ha. exists (rowOf (fetchHermes ps) p).
    assert (Hlast : lastOnChainPrice (rowOf (fetchHermes ps) p) = 2500)
      by (unfold rowOf; rewrite Hc; simpl; now rewrite Ha).
    split; [exact Hrow|]. split; [exact Hlast|]. split; [exact Hfresh|].
    unfold diffRatio. rewrite Hfresh, Hlast. now vm_compute.
  - intros j q data round Hj Hh Hc.
    rewrite loadData_lookup, Hj. simpl. f_equal.
    unfold rowOf, fetchedRow. rewrite Hc.
    change (pythFeedId (probed q)) with (feedOf q).
    rewrite (fetchHermes_lookup ps q Hnd (list_elem_of_lookup_2 _ _ _ Hj)), Hh.
    reflexivity.
Qed.

End PartialFailure.

Lemma reference_failure_is_isolated_witness :
  let a := {| probed := ethUsd; hermes := hermesPrice "25010000000" (-7);
              chain := roundOf 250000000000 1762041000 |} in
  let b := {| probed := btcUsd; hermes := HermesThrows;
              chain := roundOf 250000000000 1762041000 |} in
  let c := {| probed := solUsd; hermes := hermesPrice "18012345678" (-8);
              chain := roundOf 18000000000 1762041000 |} in
  sameAnswerPerFeed [a; b; c] /\
  List.length (loadData [a; b; c]) = 3%nat /\
  (exists r, loadData [a; b; c] !! 1%nat = Some r /\ freshPrice r = 0%float /\
             diffRatio r = (-1)%float /\ colorDiff (diffRatio r) = DIVERGENT) /\
  loadData [a; b; c] !! 2%nat
  = Some {| oracle := solUsd; lastOnChainPrice := 180;
            freshPrice := 180.12345678; lastUpdateTime := 1762041000;
            isUpdating := false |}.
Proof.
  intros a b c.
  assert (Hnd : sameAnswerPerFeed [a; b; c]).
  { apply NoDup_sameAnswerPerFeed. cbn.
    repeat (apply NoDup_cons_2;
            [rewrite ?elem_of_cons, ?elem_of_nil; intuition discriminate|]).
    apply NoDup_nil_2. }
  destruct (reference_failure_is_isolated [a; b; c] 1 b Hnd eq_refl I)
    as (Hlen & _ & H2500 & Hok).
  destruct (H2500 _ eq_refl eq_refl) as (r & Hr & _ & Hf & Hd & Hc).
  split; [exact Hnd|]. split; [exact Hlen|]. split.
  - exists r. repeat (split; [assumption|]). assumption.
  - exact (Hok 2%nat c _ _ eq_refl eq_refl eq_refl).
Defined.

(** C7 as stated fails: two oracles are configured with the same feed
    identifier, [hermesMap] has one entry for both, and the later request
    writes it last.  When the request of the first throws and that of the
    second answers 2501, the row of the failed one shows 2501 and is
    ALIGNED; in the other order the row of the successful one shows 0. *)
Lemma shared_feed_breaks_isolation :
  let feedId :=
    "0xff61491a931112ddf1bd8147cd1b641375f79f5825126d665480874634fd0ace" in
  let failed :=
    {| probed := {| assetPair := "ETH/USD";
                    wrapperAddress :=
                      "0xD458FF81052d886d4D8ceB494b24439A06EE7878";
                    pythFeedId := feedId |};
       hermes := HermesThrows;
       chain := roundOf 250000000000 1762041000 |} in
  let fetched :=
    {| probed := {| assetPair := "ETH/USD (2)";
                    wrapperAddress :=
                      "0x48de5c8F33D232326738A0Af9B2404e92f46216f";
                    pythFeedId := feedId |};
       hermes := hermesPrice "25010000000" (-7);
       chain := roundOf 250000000000 1762041000 |} in
  hermesFailed (hermes failed) /\
  freshPriceOf (hermes fetched) = 2501%float /\
  List.length (loadData [failed; fetched]) = 2%nat /\
  (exists r,
     loadData [failed; fetched] !! 0%nat = Some r /\
     oracle r = probed failed /\
     lastOnChainPrice r = 2500%float /\
     freshPrice r = 2501%float /\
     freshPrice r <> 0%float /\
     diffRatio r <> (-1)%float /\
     colorDiff (diffRatio r) = ALIGNED) /\
  (exists r,
     loadData [fetched; failed] !! 0%nat = Some r /\
     oracle r = probed fetched /\
     freshPrice r = 0%float /\
     freshPrice r <> freshPriceOf (hermes fetched)).
Proof.
  intros feedId failed fetched.
  split; [exact I|]. split; [reflexivity|]. split; [reflexivity|]. split.
  - eexists. split; [reflexivity|].
    split; [reflexivity|]. split; [reflexivity|]. split; [reflexivity|].
    split; [|split; [|reflexivity]];
      apply float_neq_by_spec; vm_compute; discriminate.
  - eexists. split; [reflexivity|].
    split; [reflexivity|]. split; [reflexivity|].
    apply float_neq_by_spec. vm_compute. discriminate.
Qed.

(** ** The reference price of a Hermes body *)

Section ReferencePrice.

Local Open Scope float_scope.
Implicit Types (ps : list Probe) (p : Probe).

Lemma mul_nan_l (y : float) : nan * y = nan.
Proof. apply Prim2SF_inj. now rewrite mul_spec. Qed.

(** Below [10 ** -400] the power underflows to [0]: the integer quotient
    of [2 ^ 1074] by the power of ten is 0 and less than half is left. *)
Lemma pow10_underflow (e : Z) : (e <= -400)%Z -> JS.pow10 e = 0.
Proof.
  intros He. destruct e as [|k|k]; try lia.
  unfold JS.pow10, JS.roundDecimal.
  set (d := (10 ^ k)%positive).
  assert (Hbig : (2 ^ 1328 <= Z.pos d)%Z).
  { unfold d. rewrite Pos2Z.inj_pow.
    assert (H400 : (2 ^ 1328 <= 10 ^ 400)%Z)
      by (apply Z.leb_le; vm_compute; reflexivity).
    assert (10 ^ 400 <= 10 ^ Z.pos k)%Z by (apply Z.pow_le_mono_r; lia).
    lia. }
  assert (Hsmall : (2 * 2 ^ 1074 < Z.pos d)%Z).
  { assert (2 * 2 ^ 1074 < 2 ^ 1328)%Z by (vm_compute; reflexivity). lia. }
  pose proof (Zdigits2_gt (Z.pos d) 1328 ltac:(lia) Hbig) as Hd.
  pose proof (Z.pow_pos_nonneg 2 1074 ltac:(lia) ltac:(lia)) as Hpos.
  destruct (SFdiv_unfold false false 1 d 0 0) as (e' & He' & Hr).
  rewrite Hr. clear Hr.
  change (Zdigits2 1) with 1%Z in He'.
  assert (Ee : e' = (-1074)%Z) by (unfold emin64 in *; lia).
  clear He'. subst e'.
  replace (0 - 0 - -1074)%Z with 1074%Z by lia.
  rewrite Z.mul_1_l, Z.div_small, Z.mod_small by lia.
  assert (Hloc : new_location (Z.pos d) (2 ^ 1074) = loc_Inexact Lt).
  { unfold new_location, new_location_even, new_location_odd.
    replace (2 ^ 1074 =? 0)%Z with false
      by (symmetry; apply Z.eqb_neq; lia).
    destruct (Z.even (Z.pos d)).
    - f_equal. apply Z.compare_lt_iff. lia.
    - f_equal.
      destruct (Z.compare_spec (2 * 2 ^ 1074 + 1) (Z.pos d));
        try reflexivity. lia. }
  rewrite Hloc. reflexivity.
Qed.

(** [0 * 10 ** e] is [0] for every exponent up to 308, the last one whose
    power is finite. *)
Lemma zero_mul_pow10 (e : Z) : (e <= 308)%Z -> 0 * JS.pow10 e = 0.
Proof.
  intros He.
  destruct (Z.le_gt_cases e (-400)) as [Hlow|Hhigh];
    [now rewrite pow10_underflow|].
  assert (A : forallb (fun e => PrimFloat.Leibniz.eqb (0 * JS.pow10 e) 0)
                (map (fun n => (Z.of_nat n - 400)%Z) (seq 0 709)) = true)
    by (vm_compute; reflexivity).
  rewrite forallb_forall in A.
  apply FloatAxioms.Leibniz.eqb_spec, A, in_map_iff.
  exists (Z.to_nat (e + 400)). split; [lia|]. apply in_seq. lia.
Qed.

(** Every price held by the map was computed from the response of one of
    the oracles. *)
Lemma fetchHermes_values ps (k : string) (v : float) :
  fetchHermes ps !! k = Some v ->
  exists p, p ∈ ps /\ v = freshPriceOf (hermes p).
Proof.
  unfold fetchHermes. revert k v.
  induction ps as [|p ps IH] using rev_ind; intros k v; simpl.
  - now rewrite lookup_empty.
  - rewrite fold_left_app. simpl. unfold hermesStep at 1.
    destruct (decide (pythFeedId (probed p) = k)) as [<-|Hne].
    + rewrite lookup_insert_eq. intros [= <-].
      exists p. split; [|reflexivity]. apply elem_of_app. right.
      apply list_elem_of_singleton. reflexivity.
    + rewrite lookup_insert_ne by exact Hne. intros Hk.
      destruct (IH k v Hk) as (q & Hq & ->).
      exists q. split; [|reflexivity]. apply elem_of_app. now left.
Qed.

(** The correctly rounded power of ten is a finite number that is not
    negative up to the exponent 308. *)
Lemma pow10_finite (e : Z) :
  (e <= 308)%Z ->
  (0 <=? JS.pow10 e) = true /\ (JS.pow10 e <? infinity) = true.
Proof.
  intros He.
  destruct (Z.le_gt_cases e (-400)) as [Hlow|Hhigh];
    [rewrite pow10_underflow by exact Hlow; now split|].
  assert (A : forallb (fun e => (0 <=? JS.pow10 e) && (JS.pow10 e <? infinity))
                (map (fun n => (Z.of_nat n - 400)%Z) (seq 0 709)) = true)
    by (vm_compute; reflexivity).
  rewrite forallb_forall in A.
  apply andb_prop, A, in_map_iff.
  exists (Z.to_nat (e + 400)). split; [lia|]. apply in_seq. lia.
Qed.

(** A zero times a finite number that is not negative is a zero. *)
Lemma zero_mul_finite (x : float) :
  (0 <=? x) = true -> (x <? infinity) = true -> (0 * x =? 0) = true.
Proof.
  rewrite leb_spec, ltb_spec, eqb_spec, mul_spec.
  change (Prim2SF 0) with (S754_zero false).
  change (Prim2SF infinity) with (S754_infinity false).
  destruct (Prim2SF x) as [[]|[]| |[] m e]; try discriminate; reflexivity.
Qed.

(** C5, as amended: with [power n] for the [10 ** n] of the engine, the
    reference price of a body is [Number(significand) * power exponent] in
    binary64, an absent exponent being replaced by 0, and [priceOfData] is
    this with the correctly rounded power.
    An absent significand is replaced by ["0"]: the result is a zero
    wherever the power is finite and not negative, which the correctly
    rounded one is up to the exponent 308, and NaN where the power is
    [Infinity], as at 309.  An absent price object, with a power of 1 at
    exponent 0, and an absent or empty entry list give 0.  The string is
    not validated: a significand for which [Number] yields NaN, such as
    "2501,50", "abc" or "1e", gives NaN, not 0, and a string that is no
    decimal number but that [Number] reads gives its value times the power:
    0 for the empty string, 31 for "0x1F" and [Infinity] for "Infinity" at
    exponent 0.  The reference price of a row is always a number, 0 or the
    price computed from a fetched body, and that price can be NaN or
    infinite. *)
Theorem priceOfData_contract :
  (forall data, priceOfData data = priceOfDataWith JS.pow10 data) /\
  (forall power s e rest,
     priceOfDataWith power
       (bodyOf (Some {| price := Some s; expo := Some e |}) rest)
     = JS.Number_of_string s * power e) /\
  (forall s e rest,
     priceOfData (bodyOf (Some {| price := Some s; expo := Some e |}) rest)
     = JS.Number_of_string s * JS.pow10 e) /\
  (forall power s rest,
     priceOfDataWith power
       (bodyOf (Some {| price := Some s; expo := None |}) rest)
     = JS.Number_of_string s * power 0%Z) /\
  (forall power e rest,
     (0 <=? power e) = true -> (power e <? infinity) = true ->
     (priceOfDataWith power
        (bodyOf (Some {| price := None; expo := Some e |}) rest) =? 0)
     = true) /\
  (forall e, (e <= 308)%Z ->
     (0 <=? JS.pow10 e) = true /\ (JS.pow10 e <? infinity) = true) /\
  (forall e rest, (e <= 308)%Z ->
     priceOfData (bodyOf (Some {| price := None; expo := Some e |}) rest)
     = 0) /\
  (forall power e rest,
     power e = infinity ->
     priceOfDataWith power
       (bodyOf (Some {| price := None; expo := Some e |}) rest)
     = nan) /\
  (forall rest,
     priceOfData (bodyOf (Some {| price := None; expo := Some 309%Z |}) rest)
     = nan) /\
  (forall power rest,
     power 0%Z = 1 -> priceOfDataWith power (bodyOf None rest) = 0) /\
  (forall rest, priceOfData (bodyOf None rest) = 0) /\
  (forall power,
     priceOfDataWith power {| parsed := None |} = 0 /\
     priceOfDataWith power {| parsed := Some [] |} = 0) /\
  priceOfData {| parsed := None |} = 0 /\
  priceOfData {| parsed := Some [] |} = 0 /\
  (forall power s oe rest, JS.Number_of_string s = nan ->
     priceOfDataWith power
       (bodyOf (Some {| price := Some s; expo := oe |}) rest)
     = nan) /\
  (forall s oe rest, JS.Number_of_string s = nan ->
     priceOfData (bodyOf (Some {| price := Some s; expo := oe |}) rest)
     = nan) /\
  (JS.Number_of_string "2501,50" = nan /\
   JS.Number_of_string "abc" = nan /\
   JS.Number_of_string "1e" = nan) /\
  (forall power rest,
     power 0%Z = 1 ->
     priceOfDataWith power
       (bodyOf (Some {| price := Some ""; expo := Some 0%Z |}) rest) = 0 /\
     priceOfDataWith power
       (bodyOf (Some {| price := Some "0x1F"; expo := Some 0%Z |}) rest) = 31 /\
     priceOfDataWith power
       (bodyOf (Some {| price := Some "Infinity"; expo := Some 0%Z |}) rest)
     = infinity) /\
  (forall ps r, r ∈ loadData ps ->
     freshPrice r = 0 \/
     exists p data, p ∈ ps /\ hermes p = HermesOk data /\
                    freshPrice r = priceOfData data).
Proof.
  repeat match goal with |- _ /\ _ => split end.
  - reflexivity.
  - reflexivity.
  - reflexivity.
  - reflexivity.
  - intros power e rest H0 Hinf. unfold priceOfDataWith, bodyOf. simpl.
    change (JS.Number_of_string "0") with 0. now apply zero_mul_finite.
  - apply pow10_finite.
  - intros e rest He. unfold priceOfData, bodyOf. simpl.
    change (JS.Number_of_string "0") with 0. now apply zero_mul_pow10.
  - intros power e rest Hp. unfold priceOfDataWith, bodyOf. simpl.
    rewrite Hp. reflexivity.
  - intros rest. now vm_compute.
  - intros power rest Hp. unfold priceOfDataWith, bodyOf. simpl.
    rewrite Hp. reflexivity.
  - reflexivity.
  - intros power. split; reflexivity.
  - reflexivity.
  - reflexivity.
  - intros power s oe rest Hs. unfold priceOfDataWith, bodyOf. simpl.
    rewrite Hs. apply mul_nan_l.
  - intros s oe rest Hs. unfold priceOfData, bodyOf. simpl.
    rewrite Hs. apply mul_nan_l.
  - reflexivity.
  - reflexivity.
  - reflexivity.
  - intros power rest Hp. unfold priceOfDataWith, bodyOf. simpl.
    rewrite Hp. repeat split.
  - intros ps r Hr. rewrite loadData_map in Hr.
    apply list_elem_of_In, in_map_iff in Hr as (p & <- & _).
    unfold rowOf. destruct (chain p); simpl; [now left|].
    destruct (fetchHermes ps !! pythFeedId (probed p)) as [v|] eqn:E;
      simpl; [|now left].
    apply fetchHermes_values in E as (q & Hq & ->).
    destruct (hermes q) as [| |data] eqn:Eq; simpl; [now left|now left|].
    right. now exists q, data.
Qed.

Lemma priceOfData_contract_witness :
  (priceOfDataWith JS.pow10
     (bodyOf (Some {| price := None; expo := Some (-8)%Z |}) []) =? 0) = true
  /\ priceOfData (bodyOf (Some {| price := None; expo := Some (-8)%Z |}) []) = 0
  /\ priceOfDataWith JS.pow10 (bodyOf None []) = 0
  /\ priceOfData (bodyOf (Some {| price := Some "2501,50";
                                  expo := Some (-8)%Z |}) []) = nan.
Proof.
  destruct priceOfData_contract
    as (_ & _ & _ & _ & Hzero & _ & Hmodel & _ & _ & Hobject & _ & _ & _
        & _ & _ & Hnan & _).
  split; [|split; [|split]].
  - apply (Hzero JS.pow10 (-8)%Z []); reflexivity.
  - apply (Hmodel (-8)%Z []). lia.
  - apply (Hobject JS.pow10 []). reflexivity.
  - apply (Hnan "2501,50" (Some (-8)%Z) []). reflexivity.
Defined.

(** C5 as stated fails: a significand that is not a decimal number gives
    NaN, and the row of the feed carries NaN as reference price. *)
Lemma malformed_significand_gives_nan :
  let resp := hermesPrice "2501,50" (-8) in
  let a := {| probed := ethUsd; hermes := resp;
              chain := roundOf 250000000000 1762041000 |} in
  freshPriceOf resp = nan /\
  freshPriceOf resp <> 0 /\
  exists r, loadData [a] !! 0%nat = Some r /\
            freshPrice r = nan /\
            is_nan (freshPrice r) = true /\
            is_finite (freshPrice r) = false.
Proof.
  intros resp a. split; [reflexivity|]. split.
  - apply float_neq_by_spec. vm_compute. discriminate.
  - eexists. split; [reflexivity|]. now vm_compute.
Qed.

End ReferencePrice.

(** ** The view of a feed that could not be read *)

Section UnfetchedFeed.

Local Open Scope float_scope.
Implicit Types (ps : list Probe) (p : Probe).

Lemma sub_zero_r (x : float) : x - 0 = x.
Proof.
  apply Prim2SF_inj. rewrite sub_spec.
  change (Prim2SF 0) with (S754_zero false).
  now destruct (Prim2SF x) as [[]|[]| |[] m e].
Qed.

Lemma minsSince_zeroRow nowSec o : minsSince nowSec (zeroRow o) = nowSec / 60.
Proof. unfold minsSince. simpl. now rewrite sub_zero_r. Qed.

(** Thirty minutes: from 1800 seconds on, the minutes are 30 or more. *)
Lemma div_60_from_1800 (t : float) :
  (1800 <=? t) = true -> (30 <=? t / 60) = true.
Proof.
  rewrite !leb_spec, div_spec. unfold SF64div.
  pose proof (Prim2SF_valid t) as Vt.
  pose proof (Prim2SF_valid (t / 60)) as Vr. rewrite div_spec in Vr.
  unfold SF64div in Vr.
  change (Prim2SF 1800) with (S754_finite false 7916483719987200 (-42)).
  change (Prim2SF 60) with (S754_finite false 8444249301319680 (-47)) in *.
  change (Prim2SF 30) with (S754_finite false 8444249301319680 (-48)).
  destruct (Prim2SF t) as [[]|[]| |[] mt et]; try discriminate.
  - reflexivity.
  - intros Hle.
    apply (SFdiv_threshold 7916483719987200 _ _ _ (-42));
      try assumption; reflexivity.
Qed.

(** C9, as amended: the row of a feed whose on-chain read failed shows
    0.00 for both prices and 0.00% for the divergence, which is ALIGNED;
    its time cell shows the minutes elapsed since the Unix epoch, that is
    [nowSec / 60] with one decimal, not 0.0; the row is STALE whenever the
    clock reads 1800 seconds or more. *)
Theorem unfetched_feed_view ps (i : nat) p (nowSec : float) :
  ps !! i = Some p ->
  chain p = ReadThrows ->
  exists r,
    loadData ps !! i = Some r /\
    lastOnChainPrice r = 0 /\ freshPrice r = 0 /\ lastUpdateTime r = 0 /\
    onChainCell (renderRow nowSec r) = Some "0.00" /\
    freshCell (renderRow nowSec r) = Some "0.00" /\
    diffCell (renderRow nowSec r) = Some "0.00%" /\
    diffColor (renderRow nowSec r) = ALIGNED /\
    timeCell (renderRow nowSec r)
    = (fun s => s ++ " min") <$> JS.toFixed 1 (nowSec / 60) /\
    timeColor (renderRow nowSec r) = colorTime (nowSec / 60) /\
    ((1800 <=? nowSec) = true -> timeColor (renderRow nowSec r) = STALE).
Proof.
  intros Hi Hc. exists (zeroRow (probed p)).
  split; [now apply loadData_read_failure|].
  unfold renderRow. simpl. rewrite minsSince_zeroRow.
  repeat (split; [reflexivity|]).
  intros H1800. now apply colorTime_from_30, div_60_from_1800.
Qed.

Lemma unfetched_feed_view_witness :
  let a := {| probed := ethUsd; hermes := HermesThrows;
              chain := ReadThrows |} in
  exists r, loadData [a] !! 0%nat = Some r /\
            onChainCell (renderRow 1762041600 r) = Some "0.00" /\
            timeColor (renderRow 1762041600 r) = STALE.
Proof.
  intros a.
  destruct (unfetched_feed_view [a] 0 a 1762041600 eq_refl eq_refl)
    as (r & Hr & _ & _ & _ & Hcell & _ & _ & _ & _ & _ & Hstale).
  exists r. split; [exact Hr|]. split; [exact Hcell|].
  apply Hstale. reflexivity.
Defined.

(** C9 as stated fails: on 2 November 2025 the time cell of a feed that
    could not be fetched reads 29367360.0 min, not 0.0 min. *)
Lemma unfetched_feed_shows_minutes_since_epoch :
  let a := {| probed := ethUsd; hermes := HermesThrows;
              chain := ReadThrows |} in
  exists r, loadData [a] !! 0%nat = Some r /\
            timeCell (renderRow 1762041600 r) = Some "29367360.0 min" /\
            timeCell (renderRow 1762041600 r) <> Some "0.0 min".
Proof.
  intros a. exists (zeroRow ethUsd).
  split; [reflexivity|]. split; [now vm_compute|].
  vm_compute. discriminate.
Qed.

End UnfetchedFeed.

(** ** A worked refresh *)

Section Scenarios.

Local Open Scope float_scope.

(** The wrapper answers 250000000000, updated 1800 seconds ago, and Hermes
    answers 25010000000 with exponent -7: prices 2500 and 2501, a ratio of
    0.0004, which is ALIGNED, and 30 minutes since the update, which is
    STALE. *)
Example aligned_but_stale :
  let a := {| probed := ethUsd; hermes := hermesPrice "25010000000" (-7);
              chain := roundOf 250000000000 1762039800 |} in
  exists r, loadData [a] !! 0%nat = Some r /\
            lastOnChainPrice r = 2500 /\ freshPrice r = 2501 /\
            diffRatio r = 0.0004 /\
            colorDiff (diffRatio r) = ALIGNED /\
            minsSince 1762041600 r = 30 /\
            colorTime (minsSince 1762041600 r) = STALE /\
            renderRow 1762041600 r
            = {| pairCell := "ETH/USD"; onChainCell := Some "2500.00";
                 freshCell := Some "2501.00"; diffCell := Some "0.04%";
                 diffColor := "green"; timeCell := Some "30.0 min";
                 timeColor := "red"; buttonDisabled := false;
                 buttonLabel := "Update for Reward" |}.
Proof. intros a. eexists. split; [reflexivity|]. now vm_compute. Qed.

End Scenarios.

(** ** Updating one oracle *)

Section HandleUpdate.

Implicit Types (old : list OracleRow) (r row : OracleRow) (address : string).

Lemma withHexPrefix_prefixed (hex : string) :
  String.prefix "0x" (withHexPrefix hex) = true.
Proof.
  unfold withHexPrefix.
  destruct (String.prefix "0x" hex) eqn:E; [exact E|].
  simpl. now destruct hex.
Qed.

(** X1: the normalisation of the update data puts ["0x"] in front of every
    string that lacks it and only of those: its results all start with
    ["0x"], it changes nothing that already does, and applying it twice is
    applying it once. *)
Theorem withHexPrefix_normalises (data : list string) :
  Forall (fun hex => String.prefix "0x" hex = true) (map withHexPrefix data) /\
  map withHexPrefix (map withHexPrefix data) = map withHexPrefix data /\
  List.length (map withHexPrefix data) = List.length data /\
  (Forall (fun hex => String.prefix "0x" hex = true) data ->
   map withHexPrefix data = data).
Proof.
  split; [|split; [|split]].
  - induction data as [|hex data IH]; simpl; constructor.
    + apply withHexPrefix_prefixed.
    + exact IH.
  - rewrite map_map. apply map_ext. intros hex.
    unfold withHexPrefix at 1. now rewrite withHexPrefix_prefixed.
  - apply length_map.
  - induction 1 as [|hex data Hhex _ IH]; simpl; [reflexivity|].
    rewrite IH. unfold withHexPrefix. now rewrite Hhex.
Qed.

Lemma withHexPrefix_normalises_witness :
  map withHexPrefix ["0x504e41"; "0xabcd"] = ["0x504e41"; "0xabcd"].
Proof.
  apply (proj2 (proj2 (proj2 (withHexPrefix_normalises _)))).
  repeat constructor.
Defined.

Lemma setUpdating_lookup address (flag : bool) old (i : nat) :
  setUpdating address flag old !! i
  = (fun r => if ofWrapper address r
              then {| oracle := oracle r;
                      lastOnChainPrice := lastOnChainPrice r;
                      freshPrice := freshPrice r;
                      lastUpdateTime := lastUpdateTime r;
                      isUpdating := flag |}
              else r) <$> old !! i.
Proof. unfold setUpdating. apply list_lookup_fmap. Qed.

Lemma setUpdating_rowData address (flag : bool) old :
  map rowData (setUpdating address flag old) = map rowData old.
Proof.
  unfold setUpdating. rewrite map_map. apply map_ext. intros r.
  now destruct (String.eqb _ _).
Qed.

Lemma setUpdating_twice address (f1 f2 : bool) old :
  setUpdating address f2 (setUpdating address f1 old)
  = setUpdating address f2 old.
Proof.
  unfold setUpdating. rewrite map_map. apply map_ext. intros r.
  destruct (String.eqb (wrapperAddress (oracle r)) address) eqn:E; simpl;
    now rewrite E.
Qed.

Lemma setUpdating_id address (flag : bool) old :
  Forall (fun r => ofWrapper address r = true -> isUpdating r = flag) old ->
  setUpdating address flag old = old.
Proof.
  unfold setUpdating, ofWrapper.
  induction 1 as [|r old Hr _ IH]; simpl; [reflexivity|].
  rewrite IH. f_equal.
  destruct (String.eqb _ _); [|reflexivity].
  destruct r. simpl in *. now rewrite Hr.
Qed.

Lemma setUpdating_flag address (flag : bool) old :
  Forall (fun r => ofWrapper address r = true -> isUpdating r = flag)
    (setUpdating address flag old).
Proof.
  unfold setUpdating, ofWrapper.
  induction old as [|r old IH]; simpl; constructor; [|exact IH].
  destruct (String.eqb (wrapperAddress (oracle r)) address) eqn:E; simpl.
  - reflexivity.
  - rewrite E. discriminate.
Qed.

Lemma rowsAfter_connected (client : AgwClient) (w : UpdateWorld) old row :
  rowsAfter (handleUpdate (Some client) w old row)
  = setUpdating (wrapperAddress (oracle row)) false old.
Proof.
  unfold handleUpdate. destruct (tryUpdate client w row) as [alert call].
  simpl. apply setUpdating_twice.
Qed.

Lemma rowsDuring_connected (client : AgwClient) (w : UpdateWorld) old row :
  rowsDuring (handleUpdate (Some client) w old row)
  = setUpdating (wrapperAddress (oracle row)) true old.
Proof.
  unfold handleUpdate. now destruct (tryUpdate client w row) as [alert call].
Qed.

(** X2: whatever the three calls do (each may throw), once [handleUpdate]
    has returned with a wallet connected, no row of the wrapper is left
    marked as updating. *)
Theorem handleUpdate_clears_flag (client : AgwClient) (w : UpdateWorld)
  old row :
  Forall (fun r => ofWrapper (wrapperAddress (oracle row)) r = true ->
                   isUpdating r = false)
    (rowsAfter (handleUpdate (Some client) w old row)).
Proof. rewrite rowsAfter_connected. apply setUpdating_flag. Qed.

(** X3: [handleUpdate] changes nothing but flags, and only those of the
    rows of the wrapper: at both moments the table has the same oracles and
    numbers in the same order, and a row of another wrapper is the row it
    was. *)
Theorem handleUpdate_keeps_data (agwClient : option AgwClient)
  (w : UpdateWorld) old row :
  let run := handleUpdate agwClient w old row in
  map rowData (rowsDuring run) = map rowData old /\
  map rowData (rowsAfter run) = map rowData old /\
  forall (i : nat) r,
    old !! i = Some r ->
    ofWrapper (wrapperAddress (oracle row)) r = false ->
    rowsDuring run !! i = Some r /\ rowsAfter run !! i = Some r.
Proof.
  destruct agwClient as [client|]; cbv zeta.
  - rewrite rowsAfter_connected, rowsDuring_connected.
    rewrite !setUpdating_rowData.
    split; [reflexivity|]. split; [reflexivity|].
    intros i r Hi Hr. rewrite !setUpdating_lookup, Hi. simpl.
    now rewrite Hr.
  - simpl. split; [reflexivity|]. split; [reflexivity|].
    intros i r Hi Hr. now split.
Qed.

Lemma handleUpdate_keeps_data_witness :
  let a := {| oracle := ethUsd; lastOnChainPrice := 2500; freshPrice := 2501;
              lastUpdateTime := 1762041000; isUpdating := false |} in
  let b := {| oracle := btcUsd; lastOnChainPrice := 97000; freshPrice := 96900;
              lastUpdateTime := 1762041000; isUpdating := true |} in
  let w := {| fetchUpdate := fun _ => UpdateNotOk 503;
              getRequiredFee := fun _ _ => Returned 1%Z |} in
  rowsDuring (handleUpdate (Some (fun _ _ _ => Threw "rejected")) w [a; b] a)
    !! 1%nat = Some b.
Proof.
  intros a b w.
  exact (proj1 (proj2 (proj2 (handleUpdate_keeps_data
           (Some (fun _ _ _ => Threw "rejected")) w [a; b] a))
           1%nat b eq_refl eq_refl)).
Defined.

Lemma loadData_flags_clear (ps : list Probe) :
  Forall (fun r => isUpdating r = false) (loadData ps).
Proof.
  rewrite loadData_map. generalize (fetchHermes ps). intros hermesMap.
  induction ps as [|p ps IH]; simpl; constructor;
    [apply isUpdating_rowOf|exact IH].
Qed.

(** X4: after a refresh, an attempt to update an oracle, successful or
    not, connected or not, leaves the table exactly as the refresh made
    it. *)
Theorem handleUpdate_after_refresh (agwClient : option AgwClient)
  (w : UpdateWorld) (ps : list Probe) row :
  rowsAfter (handleUpdate agwClient w (loadData ps) row) = loadData ps.
Proof.
  destruct agwClient as [client|]; [|reflexivity].
  rewrite rowsAfter_connected. apply setUpdating_id.
  induction (loadData_flags_clear ps) as [|r l Hr _ IH]; constructor;
    [now intros _|exact IH].
Qed.


(** X5: the wallet is asked for a transaction only after Hermes has
    answered and the wrapper has priced the update; the call then goes to
    the wrapper of the row, carries the normalised Hermes data and pays
    exactly the fee the wrapper asked for these data. *)
Theorem handleUpdate_call (agwClient : option AgwClient) (w : UpdateWorld)
  old row (call : UpdateCall) :
  written (handleUpdate agwClient w old row) = Some call <->
  exists (client : AgwClient) data fee,
    agwClient = Some client /\
    fetchUpdate w (pythFeedId (oracle row)) = UpdateOk data /\
    getRequiredFee w (wrapperAddress (oracle row)) (map withHexPrefix data)
    = Returned fee /\
    call = {| callAddress := wrapperAddress (oracle row);
              callData := map withHexPrefix data;
              callValue := fee |}.
Proof.
  unfold handleUpdate, tryUpdate. split.
  - destruct agwClient as [client|]; [|discriminate].
    destruct (fetchUpdate w (pythFeedId (oracle row))) as [m|st|data];
      try discriminate.
    destruct (getRequiredFee w (wrapperAddress (oracle row))
                (map withHexPrefix data)) as [m|fee] eqn:Efee;
      try discriminate.
    intros H. exists client, data, fee.
    repeat (split; [reflexivity|]).
    destruct (client _ _ _); simpl in H; now injection H as <-.
  - intros (client & data & fee & -> & -> & -> & ->).
    now destruct (client _ _ _).
Qed.

Lemma handleUpdate_call_witness :
  let row := {| oracle := ethUsd; lastOnChainPrice := 2500;
                freshPrice := 2501; lastUpdateTime := 1762041000;
                isUpdating := false |} in
  let w := {| fetchUpdate := fun _ => UpdateOk ["504e41"; "0xabcd"];
              getRequiredFee := fun _ data => Returned (Z.of_nat (List.length data)) |} in
  written (handleUpdate (Some (fun _ _ _ => Threw "rejected")) w [row] row)
  = Some {| callAddress := "0xA1"; callData := ["0x504e41"; "0xabcd"];
            callValue := 2 |}.
Proof.
  intros row w.
  apply (proj2 (handleUpdate_call _ w [row] row _)).
  exists (fun _ _ _ => Threw "rejected"), ["504e41"; "0xabcd"], 2%Z.
  repeat split.
Defined.

(** X6: every run of [handleUpdate] shows exactly one alert, and it is
    the one announcing the transaction exactly when the wallet returned a
    hash for the call that was made. *)
Theorem handleUpdate_alert (agwClient : option AgwClient) (w : UpdateWorld)
  old row :
  let run := handleUpdate agwClient w old row in
  List.length (alerts run) = 1%nat /\
  forall txHash,
    alerts run = ["TX sent: " ++ txHash] <->
    exists (client : AgwClient) call,
      agwClient = Some client /\
      written run = Some call /\
      client (callAddress call) (callData call) (callValue call)
      = Returned txHash.
Proof.
  cbv zeta. unfold handleUpdate, tryUpdate.
  destruct agwClient as [client|]; simpl.
  - destruct (fetchUpdate w (pythFeedId (oracle row))) as [m|st|data]; simpl.
    + split; [reflexivity|]. intros h. split; [discriminate|].
      now intros (c & call & _ & [=] & _).
    + split; [reflexivity|]. intros h. split; [discriminate|].
      now intros (c & call & _ & [=] & _).
    + destruct (getRequiredFee w (wrapperAddress (oracle row))
                  (map withHexPrefix data)) as [m|fee]; simpl.
      * split; [reflexivity|]. intros h. split; [discriminate|].
        now intros (c & call & _ & [=] & _).
      * destruct (client (wrapperAddress (oracle row))
                    (map withHexPrefix data) fee) as [m|h'] eqn:Ew; simpl.
        -- split; [reflexivity|]. intros h. split; [discriminate|].
           intros (c & call & [= <-] & [= <-] & Hc). simpl in Hc.
           rewrite Ew in Hc. discriminate.
        -- split; [reflexivity|]. intros h. split.
           ++ intros H. injection H as H. change (h' = h) in H. subst h.
              eexists client, _.
              split; [reflexivity|]. split; [reflexivity|]. exact Ew.
           ++ intros (c & call & [= <-] & [= <-] & Hc). simpl in Hc.
              rewrite Ew in Hc. now injection Hc as ->.
  - split; [reflexivity|]. intros h. split; [discriminate|].
    now intros (c & call & [=] & _).
Qed.

Lemma handleUpdate_alert_witness :
  let row := {| oracle := ethUsd; lastOnChainPrice := 2500;
                freshPrice := 2501; lastUpdateTime := 1762041000;
                isUpdating := false |} in
  let w := {| fetchUpdate := fun _ => UpdateOk ["504e41"];
              getRequiredFee := fun _ _ => Returned 1%Z |} in
  alerts (handleUpdate (Some (fun _ _ _ => Returned "0x7e57")) w [row] row)
  = ["TX sent: 0x7e57"].
Proof.
  intros row w.
  apply (proj2 (proj2 (handleUpdate_alert _ w [row] row) "0x7e57")).
  eexists (fun _ _ _ => Returned "0x7e57"), _.
  split; [reflexivity|]. split; reflexivity.
Defined.

(** X7: while an update started from a refreshed table is in flight, the
    buttons of the rows of that wrapper, and only those, are disabled and
    read "Updating..."; every other cell of every line is unchanged. *)
Theorem update_in_flight_view (client : AgwClient) (w : UpdateWorld)
  (ps : list Probe) row (nowSec : float) (i : nat) r :
  loadData ps !! i = Some r ->
  exists r',
    rowsDuring (handleUpdate (Some client) w (loadData ps) row) !! i
    = Some r' /\
    buttonDisabled (renderRow nowSec r')
    = ofWrapper (wrapperAddress (oracle row)) r /\
    buttonLabel (renderRow nowSec r')
    = (if ofWrapper (wrapperAddress (oracle row)) r
       then "Updating..." else "Update for Reward") /\
    pairCell (renderRow nowSec r') = pairCell (renderRow nowSec r) /\
    onChainCell (renderRow nowSec r') = onChainCell (renderRow nowSec r) /\
    freshCell (renderRow nowSec r') = freshCell (renderRow nowSec r) /\
    diffCell (renderRow nowSec r') = diffCell (renderRow nowSec r) /\
    diffColor (renderRow nowSec r') = diffColor (renderRow nowSec r) /\
    timeCell (renderRow nowSec r') = timeCell (renderRow nowSec r) /\
    timeColor (renderRow nowSec r') = timeColor (renderRow nowSec r).
Proof.
  intros Hi.
  assert (Hflag : isUpdating r = false).
  { rewrite loadData_lookup in Hi.
    destruct (ps !! i) as [p|]; [|discriminate].
    injection Hi as <-. apply isUpdating_rowOf. }
  rewrite rowsDuring_connected, setUpdating_lookup, Hi. simpl.
  eexists. split; [reflexivity|].
  destruct (ofWrapper (wrapperAddress (oracle row)) r); simpl.
  - repeat split.
  - rewrite Hflag. repeat split.
Qed.

Lemma update_in_flight_view_witness :
  let a := {| probed := ethUsd; hermes := hermesPrice "25010000000" (-7);
              chain := roundOf 250000000000 1762041000 |} in
  let b := {| probed := btcUsd; hermes := HermesThrows; chain := ReadThrows |} in
  let w := {| fetchUpdate := fun _ => UpdateNotOk 503;
              getRequiredFee := fun _ _ => Returned 1%Z |} in
  exists r',
    rowsDuring (handleUpdate (Some (fun _ _ _ => Threw "rejected")) w
                  (loadData [a; b]) (zeroRow btcUsd)) !! 1%nat = Some r' /\
    buttonLabel (renderRow 1762041600 r') = "Updating...".
Proof.
  intros a b w.
  destruct (update_in_flight_view (fun _ _ _ => Threw "rejected") w [a; b]
              (zeroRow btcUsd) 1762041600 1 (zeroRow btcUsd) eq_refl)
    as (r' & Hr' & _ & Hlabel & _).
  exists r'. split; [exact Hr'|exact Hlabel].
Defined.

End HandleUpdate.

(** ** The page after a refresh *)

Section HomePage.

(** X8: before a wallet has been connected the page shows the "No
    oracles" paragraph, as it does with a wallet and an empty
    configuration; with a wallet and a configured oracle it shows, once the
    refresh is over, a table with one line per oracle, in configuration
    order, every button enabled and reading "Update for Reward".  Without
    a wallet the effect does nothing, whatever the state: after a
    disconnect the table of the last refresh stays. *)
Theorem home_after_refresh (nowSec : float) (ps : list Probe)
  (st : HomeState) :
  homeView nowSec (homeEffect false ps initialHome) = NoOracles /\
  homeEffect false ps st = st /\
  homeView nowSec (homeEffect true [] st) = NoOracles /\
  (ps <> [] ->
   exists lines,
     homeView nowSec (homeEffect true ps st) = OracleTable lines /\
     map pairCell lines = map (fun p => assetPair (probed p)) ps /\
     Forall (fun line => buttonDisabled line = false /\
                         buttonLabel line = "Update for Reward") lines /\
     forall later,
       homeView nowSec (homeEffect false later (homeEffect true ps st))
       = OracleTable lines).
Proof.
  split; [reflexivity|]. split; [reflexivity|]. split; [reflexivity|].
  intros Hne. exists (render nowSec (loadData ps)).
  assert (Hview : homeView nowSec (homeEffect true ps st)
                  = OracleTable (render nowSec (loadData ps))).
  { unfold homeView, homeEffect. simpl.
    rewrite loadData_map. destruct ps as [|p ps]; [contradiction|reflexivity]. }
  split; [exact Hview|]. split; [|split].
  - unfold render. rewrite loadData_map, !map_map.
    apply map_ext. intros p. simpl. now rewrite oracle_rowOf.
  - unfold render. rewrite loadData_map, map_map.
    generalize (fetchHermes ps). intros hermesMap. clear Hne Hview.
    induction ps as [|p ps IH]; simpl; constructor; [|exact IH].
    simpl. now rewrite isUpdating_rowOf.
  - intros later. exact Hview.
Qed.

Lemma home_after_refresh_witness :
  let a := {| probed := ethUsd; hermes := hermesPrice "25010000000" (-7);
              chain := roundOf 250000000000 1762041000 |} in
  exists lines,
    homeView 1762041600 (homeEffect true [a] initialHome) = OracleTable lines
    /\ map pairCell lines = ["ETH/USD"]
    /\ homeView 1762041600
         (homeEffect false [] (homeEffect true [a] initialHome))
       = OracleTable lines.
Proof.
  intros a.
  destruct (proj2 (proj2 (proj2
              (home_after_refresh 1762041600 [a] initialHome))))
    as (lines & Hview & Hcells & _ & Hstays); [discriminate|].
  exists lines. split; [exact Hview|]. split; [exact Hcells|].
  apply Hstays.
Defined.

End HomePage.

(** ** Rounded results are canonical *)

Section Canonical.

Local Open Scope Z_scope.

Lemma shr_fexp_snd (m e : Z) (l : location) :
  snd (shr_fexp prec emax m e l) = Z.max e (fexp prec emax (Zdigits2 m + e)).
Proof.
  unfold shr_fexp, shr.
  destruct (fexp prec emax (Zdigits2 m + e) - e) as [|n|n] eqn:En; simpl; lia.
Qed.

Lemma round_nearest_even_le (m : Z) (l : location) :
  round_nearest_even m l <= m + 1.
Proof.
  unfold round_nearest_even. destruct l as [|[]]; try lia.
  destruct (Z.even m); lia.
Qed.

Lemma Zdigits2_succ (m : Z) : 0 < m -> Zdigits2 (m + 1) <= Zdigits2 m + 1.
Proof.
  intros Hm. destruct (Zdigits2_bounds m Hm) as (Hd & _ & Hhi).
  apply Zdigits2_le; [lia|lia|].
  rewrite Z.pow_add_r by lia. lia.
Qed.

(** Rounding a positive mantissa given at an exponent not above the
    canonical one: the result is the canonical representation of a value
    whose magnitude is that of the argument, or one more. *)
Lemma binary_round_aux_canonical (s : bool) (m e : Z) (l : location) :
  0 < m -> emin64 < Zdigits2 m + e ->
  e <= fexp prec emax (Zdigits2 m + e) ->
  exists mf ef,
    binary_round_aux prec emax s m e l
    = (if ef <=? 971 then S754_finite s mf ef else S754_infinity s) /\
    ef = fexp prec emax (Zdigits2 (Z.pos mf) + ef) /\
    Zdigits2 m + e <= Zdigits2 (Z.pos mf) + ef <= Zdigits2 m + e + 1.
Proof.
  intros Hm HG He. unfold binary_round_aux.
  pose proof (shr_fexp_pos m e l Hm HG) as H1.
  pose proof (shr_fexp_snd m e l) as Hs1.
  destruct (shr_fexp prec emax m e l) as [mrs e1]. simpl in H1, Hs1.
  destruct H1 as [Hpos Hmag].
  pose proof (round_nearest_even_ge (shr_m mrs) (loc_of_shr_record mrs)) as Hge.
  pose proof (round_nearest_even_le (shr_m mrs) (loc_of_shr_record mrs)) as Hle.
  set (m1 := round_nearest_even (shr_m mrs) (loc_of_shr_record mrs)) in *.
  assert (Hm1 : 0 < m1) by lia.
  pose proof (Zdigits2_mono (shr_m mrs) m1 Hpos Hge) as Hdig.
  assert (Hdig' : Zdigits2 m1 <= Zdigits2 (shr_m mrs) + 1).
  { pose proof (Zdigits2_mono m1 (shr_m mrs + 1) Hm1 Hle).
    pose proof (Zdigits2_succ (shr_m mrs) Hpos). lia. }
  assert (HG1 : emin64 < Zdigits2 m1 + e1) by lia.
  pose proof (shr_fexp_pos m1 e1 loc_Exact Hm1 HG1) as H2.
  pose proof (shr_fexp_snd m1 e1 loc_Exact) as Hs2.
  destruct (shr_fexp prec emax m1 e1 loc_Exact) as [mrs2 e2].
  simpl in H2, Hs2. destruct H2 as [Hpos2 Hmag2].
  destruct (shr_m mrs2) as [|mf|mf] eqn:Emf; try lia.
  exists mf, e2. change (emax - prec) with 971.
  split; [reflexivity|].
  rewrite !fexp_eq in *. unfold emin64 in *. lia.
Qed.

Lemma binary_round_aux_valid (s : bool) (m e : Z) (l : location) :
  0 < m -> emin64 < Zdigits2 m + e ->
  e <= fexp prec emax (Zdigits2 m + e) ->
  valid_binary (binary_round_aux prec emax s m e l) = true.
Proof.
  intros Hm HG He.
  destruct (binary_round_aux_canonical s m e l Hm HG He)
    as (mf & ef & -> & Hc & _).
  destruct (ef <=? 971) eqn:Eb; [|reflexivity].
  unfold valid_binary, bounded, canonical_mantissa.
  change (emax - prec) with 971. rewrite Eb, Bool.andb_true_r.
  apply Z.eqb_eq. symmetry. exact Hc.
Qed.

(** Below the overflow threshold the result is finite. *)
Lemma binary_round_aux_finite (s : bool) (m e : Z) (l : location) :
  0 < m -> emin64 < Zdigits2 m + e ->
  e <= fexp prec emax (Zdigits2 m + e) ->
  Zdigits2 m + e <= 1023 ->
  exists mf ef,
    binary_round_aux prec emax s m e l = S754_finite s mf ef /\
    valid_binary (S754_finite s mf ef) = true /\
    Zdigits2 m + e <= Zdigits2 (Z.pos mf) + ef <= Zdigits2 m + e + 1.
Proof.
  intros Hm HG He Hhi.
  pose proof (binary_round_aux_valid s m e l Hm HG He) as Hv.
  destruct (binary_round_aux_canonical s m e l Hm HG He)
    as (mf & ef & E & Hc & Hmag).
  rewrite E in Hv |- *.
  assert (Hef : ef <= 971).
  { rewrite fexp_eq in Hc. unfold emin64 in *. lia. }
  apply Z.leb_le in Hef. rewrite Hef in Hv |- *.
  exists mf, ef. split; [reflexivity|]. split; [exact Hv|exact Hmag].
Qed.

Lemma shl_align_snd (m : positive) (e e' : Z) :
  snd (shl_align m e e') = Z.min e e'.
Proof.
  unfold shl_align. destruct (e' - e) as [|d|d] eqn:Ed; simpl; lia.
Qed.

(** The conversion of a non-zero integer below [2 ^ 1023]. *)
Lemma binary_normalize_int (z : Z) :
  z <> 0 -> Zdigits2 z <= 1023 ->
  exists mf ef,
    binary_normalize prec emax z 0 false = S754_finite (z <? 0) mf ef /\
    valid_binary (S754_finite (z <? 0) mf ef) = true /\
    Zdigits2 z <= Zdigits2 (Z.pos mf) + ef <= Zdigits2 z + 1.
Proof.
  intros Hz Hd.
  assert (Hround : forall (s : bool) (p : positive),
             Zdigits2 (Z.pos p) <= 1023 ->
             exists mf ef,
               binary_round prec emax s p 0 = S754_finite s mf ef /\
               valid_binary (S754_finite s mf ef) = true /\
               Zdigits2 (Z.pos p) <= Zdigits2 (Z.pos mf) + ef
               <= Zdigits2 (Z.pos p) + 1).
  { intros s p Hp. unfold binary_round.
    pose proof (shl_align_magnitude p 0
                  (fexp prec emax (Z.pos (digits2_pos p) + 0))) as Hmag.
    pose proof (shl_align_snd p 0
                  (fexp prec emax (Z.pos (digits2_pos p) + 0))) as Hsnd.
    destruct (shl_align p 0 (fexp prec emax (Z.pos (digits2_pos p) + 0)))
      as [mz ez]. simpl in Hmag, Hsnd.
    change (Z.pos (digits2_pos p)) with (Zdigits2 (Z.pos p)) in Hsnd.
    destruct (Zdigits2_bounds (Z.pos p)) as (Hd1 & _); [lia|].
    change (Z.pos (digits2_pos mz)) with (Zdigits2 (Z.pos mz)) in Hmag.
    change (Z.pos (digits2_pos p)) with (Zdigits2 (Z.pos p)) in Hmag.
    assert (HG : emin64 < Zdigits2 (Z.pos mz) + ez) by (unfold emin64; lia).
    assert (He : ez <= fexp prec emax (Zdigits2 (Z.pos mz) + ez)).
    { rewrite Hmag, Hsnd. lia. }
    assert (Hhi : Zdigits2 (Z.pos mz) + ez <= 1023) by lia.
    destruct (binary_round_aux_finite s (Z.pos mz) ez loc_Exact
                ltac:(lia) HG He Hhi) as (mf & ef & E & Hv & Hm).
    exists mf, ef. split; [exact E|]. split; [exact Hv|lia]. }
  destruct z as [|p|p]; [contradiction| |].
  - apply (Hround false p Hd).
  - apply (Hround true p Hd).
Qed.

(** The quotient of two finite values: finite, of the sign of the two
    signs, when the magnitudes are neither too far nor too close apart to
    leave the range. *)
Lemma SFdiv_finite (sx sy : bool) (mx my : positive) (ex ey : Z) :
  let g := Zdigits2 (Z.pos mx) + ex - (Zdigits2 (Z.pos my) + ey) in
  emin64 < g -> g + 1 <= 1023 ->
  exists mf ef,
    SFdiv prec emax (S754_finite sx mx ex) (S754_finite sy my ey)
    = S754_finite (xorb sx sy) mf ef.
Proof.
  intros g Hg Hhi.
  destruct (SFdiv_unfold sx sy mx my ex ey) as (e' & He' & ->).
  fold g in He'.
  assert (Hs : 0 <= ex - ey - e') by lia.
  assert (Ht : 0 <= Zdigits2 (Z.pos mx) + (ex - ey - e')
                    - Zdigits2 (Z.pos my) - 1)
    by (unfold g, emin64 in *; lia).
  pose proof (div_quotient_lower mx my _ Hs Ht) as Hq.
  pose proof (Zdigits2_gt _ _ Ht Hq) as Hdq.
  pose proof (Z.pow_pos_nonneg 2 _ ltac:(lia) Ht) as Hpt.
  set (q := Z.pos mx * 2 ^ (ex - ey - e') / Z.pos my) in *.
  assert (Hupper : Zdigits2 q <= Zdigits2 (Z.pos mx) + (ex - ey - e')
                                 - Zdigits2 (Z.pos my) + 1).
  { destruct (Zdigits2_bounds (Z.pos mx)) as (Hd1 & Hlo1 & Hhi1); [lia|].
    destruct (Zdigits2_bounds (Z.pos my)) as (Hd2 & Hlo2 & Hhi2); [lia|].
    apply Zdigits2_le; [lia|lia|].
    apply Z.div_lt_upper_bound; [lia|].
    pose proof (Z.pow_pos_nonneg 2 (ex - ey - e') ltac:(lia) Hs) as Hps.
    apply Z.lt_le_trans with (2 ^ (Zdigits2 (Z.pos mx) + (ex - ey - e'))).
    - rewrite Z.pow_add_r by lia. nia.
    - replace (Zdigits2 (Z.pos mx) + (ex - ey - e'))
        with ((Zdigits2 (Z.pos my) - 1)
              + (Zdigits2 (Z.pos mx) + (ex - ey - e')
                 - Zdigits2 (Z.pos my) + 1)) at 1 by lia.
      rewrite Z.pow_add_r by lia.
      apply Z.mul_le_mono_nonneg_r; [|lia].
      apply Z.pow_nonneg. lia. }
  destruct (binary_round_aux_finite (xorb sx sy) q e'
              (new_location (Z.pos my)
                 (Z.pos mx * 2 ^ (ex - ey - e') mod Z.pos my)))
    as (mf & ef & E & _); try (unfold g, emin64 in *; lia).
  { rewrite fexp_eq. unfold g, emin64 in *. lia. }
  exists mf, ef. exact E.
Qed.

End Canonical.

(** ** The prices of a row *)

Section RowPrices.

Local Open Scope float_scope.

(** [Number(z)] for a non-zero integer below [2 ^ 1023]. *)
Lemma Number_of_bigint_finite (z : Z) :
  z <> 0%Z -> (Zdigits2 z <= 1023)%Z ->
  exists mf ef,
    Prim2SF (JS.Number_of_bigint z) = S754_finite (z <? 0)%Z mf ef /\
    (Zdigits2 z <= Zdigits2 (Z.pos mf) + ef <= Zdigits2 z + 1)%Z.
Proof.
  intros Hz Hd.
  destruct (binary_normalize_int z Hz Hd) as (mx & ex & E & Hv & Hm).
  exists mx, ex. unfold JS.Number_of_bigint.
  rewrite Prim2SF_SF2Prim by (rewrite E; exact Hv).
  split; [exact E|exact Hm].
Qed.

(** [Number(answer) / 1e8] for a non-zero [int256] answer. *)
Lemma scaled_answer_finite (z : Z) :
  int256 z -> z <> 0%Z ->
  exists mf ef,
    Prim2SF (JS.Number_of_bigint z / 1e8) = S754_finite (z <? 0)%Z mf ef.
Proof.
  intros [Hlo Hhi] Hz.
  assert (Hd : (Zdigits2 z <= 256)%Z).
  { rewrite <- Zdigits2_abs. apply Zdigits2_le; [lia|lia|].
    change (2 ^ 256)%Z with (2 * 2 ^ 255)%Z. lia. }
  pose proof (Zdigits2_nonzero z Hz) as Hd1.
  destruct (Number_of_bigint_finite z Hz ltac:(lia)) as (mx & ex & E & Hm).
  rewrite div_spec, E.
  change (Prim2SF 1e8) with (S754_finite false 6710886400000000 (-26)).
  destruct (SFdiv_finite (z <? 0)%Z false mx 6710886400000000 ex (-26))
    as (mf & ef & Ediv).
  - change (Zdigits2 6710886400000000) with 53%Z. unfold emin64. lia.
  - change (Zdigits2 6710886400000000) with 53%Z. lia.
  - exists mf, ef. unfold SF64div. rewrite Ediv.
    now rewrite Bool.xorb_false_r.
Qed.

(** X15: the on-chain price of a row whose read returned is never NaN nor
    infinite, is zero exactly when the wrapper answered 0, and has the sign
    of the answer: the zero guard of the divergence is taken for a zero
    answer only. *)
Theorem onChainPrice_of_answer (hermesMap : gmap string float) (p : Probe)
  (result : RoundData) :
  chain p = ReadOk result ->
  int256 (answer result) ->
  let onChain := lastOnChainPrice (rowOf hermesMap p) in
  (onChain =? 0) = (answer result =? 0)%Z /\
  (0 <? onChain) = (0 <? answer result)%Z /\
  (abs onChain <? infinity) = true.
Proof.
  intros Hc Hrange. unfold rowOf. rewrite Hc. cbv zeta. simpl.
  destruct (Z.eq_dec (answer result) 0) as [E|Hz].
  - rewrite E. vm_compute. repeat split.
  - destruct (scaled_answer_finite _ Hrange Hz) as (mf & ef & E).
    rewrite eqb_spec, !ltb_spec, abs_spec, E.
    change (Prim2SF 0) with (S754_zero false).
    change (Prim2SF infinity) with (S754_infinity false).
    split; [|split].
    + symmetry. apply Z.eqb_neq in Hz. rewrite Hz.
      now destruct (answer result <? 0)%Z.
    + destruct (answer result <? 0)%Z eqn:En; cbn.
      * symmetry. apply Z.ltb_ge. apply Z.ltb_lt in En. lia.
      * symmetry. apply Z.ltb_lt. apply Z.ltb_ge in En. lia.
    + reflexivity.
Qed.

Lemma onChainPrice_of_answer_witness :
  let p := {| probed := ethUsd; hermes := HermesThrows;
              chain := roundOf (-250000000000) 1762041000 |} in
  (lastOnChainPrice (rowOf ∅ p) =? 0) = false.
Proof.
  intros p.
  apply (onChainPrice_of_answer ∅ p _ eq_refl).
  split; vm_compute; [discriminate|reflexivity].
Defined.

(** A zero reference against a finite non-zero price: the ratio is [-1],
    with no rounding. *)
Lemma ratio_zero_reference (p : float) (s : bool) (m : positive) (e : Z) :
  Prim2SF p = S754_finite s m e -> (0 - p) / p = -1.
Proof.
  intros Hp. apply Prim2SF_inj.
  rewrite div_spec, sub_spec, Hp.
  change (Prim2SF 0) with (S754_zero false).
  change (SF64sub (S754_zero false) (S754_finite s m e))
    with (S754_finite (negb s) m e).
  unfold SF64div.
  destruct (SFdiv_unfold (negb s) s m m e e) as (e' & He' & ->).
  assert (E' : e' = (-53)%Z) by (unfold emin64 in He'; lia).
  clear He'. subst e'.
  replace (e - e - -53)%Z with 53%Z by lia.
  rewrite Z.mul_comm, Z_mod_mult, Z_div_mult by lia.
  assert (Hloc : new_location (Z.pos m) 0 = loc_Exact).
  { unfold new_location, new_location_even, new_location_odd.
    now destruct (Z.even (Z.pos m)). }
  rewrite Hloc. now destruct s.
Qed.

(** X16: when every request for the feed of a row failed while the
    wrapper returned a non-zero answer, the row shows a reference of 0 and
    a divergence of exactly -100 %, in the colour DIVERGENT. *)
Theorem failed_reference_live_price (ps : list Probe) (i : nat) (p : Probe)
  (result : RoundData) (nowSec : float) :
  ps !! i = Some p ->
  chain p = ReadOk result ->
  int256 (answer result) ->
  answer result <> 0%Z ->
  (forall q, q ∈ ps -> feedOf q = feedOf p -> hermesFailed (hermes q)) ->
  exists r,
    loadData ps !! i = Some r /\
    freshPrice r = 0 /\
    diffRatio r = -1 /\
    diffCell (renderRow nowSec r) = Some "-100.00%" /\
    diffColor (renderRow nowSec r) = DIVERGENT.
Proof.
  intros Hi Hc Hrange Hz Hfail.
  assert (Hmap : fetchHermes ps !! feedOf p = Some 0).
  { apply fold_hermesStep_lookup.
    - intros q Hq Hk. apply freshPriceOf_failed. now apply Hfail.
    - exists p. split; [|reflexivity]. eapply list_elem_of_lookup_2, Hi. }
  destruct (scaled_answer_finite _ Hrange Hz) as (mf & ef & E).
  exists (rowOf (fetchHermes ps) p).
  rewrite loadData_lookup, Hi. split; [reflexivity|].
  assert (Hf : freshPrice (rowOf (fetchHermes ps) p) = 0).
  { unfold rowOf. rewrite Hc. simpl. unfold feedOf in Hmap. now rewrite Hmap. }
  assert (Hp : lastOnChainPrice (rowOf (fetchHermes ps) p)
               = JS.Number_of_bigint (answer result) / 1e8).
  { unfold rowOf. now rewrite Hc. }
  assert (Hr : diffRatio (rowOf (fetchHermes ps) p) = -1).
  { unfold diffRatio. rewrite Hf, Hp.
    rewrite (eqb_zero_finite _ _ _ _ E).
    apply (ratio_zero_reference _ _ _ _ E). }
  split; [exact Hf|]. split; [exact Hr|].
  unfold renderRow. cbv zeta. simpl. rewrite Hr. split; reflexivity.
Qed.

Lemma failed_reference_live_price_witness :
  let a := {| probed := ethUsd; hermes := HermesNotOk 503;
              chain := roundOf 250000000000 1762041000 |} in
  exists r, loadData [a] !! 0%nat = Some r /\ diffRatio r = -1.
Proof.
  intros a.
  destruct (failed_reference_live_price [a] 0 a _ 1762041600
              eq_refl eq_refl) as (r & Hr & _ & Hratio & _).
  - split; vm_compute; [discriminate|reflexivity].
  - discriminate.
  - intros q Hq _. apply list_elem_of_singleton in Hq. now subst q.
  - exists r. split; [exact Hr|exact Hratio].
Defined.

(** X17: a reference price that is not a number, against an on-chain
    price other than zero, gives the cell "NaN%" in the colour DIVERGENT. *)
Theorem nan_reference_is_divergent (nowSec : float) (r : OracleRow) :
  freshPrice r = nan ->
  (lastOnChainPrice r =? 0) = false ->
  diffCell (renderRow nowSec r) = Some "NaN%" /\
  diffColor (renderRow nowSec r) = DIVERGENT.
Proof.
  intros Hf Hp.
  assert (Hr : diffRatio r = nan).
  { unfold diffRatio. rewrite Hp, Hf. apply Prim2SF_inj.
    now rewrite div_spec, sub_spec. }
  unfold renderRow. cbv zeta. simpl. rewrite Hr. split; reflexivity.
Qed.

Lemma nan_reference_is_divergent_witness :
  let r := {| oracle := ethUsd; lastOnChainPrice := 2500; freshPrice := nan;
              lastUpdateTime := 1762041000; isUpdating := false |} in
  diffColor (renderRow 1762041600 r) = DIVERGENT.
Proof.
  intros r.
  apply (nan_reference_is_divergent 1762041600 r eq_refl eq_refl).
Defined.

End RowPrices.

(** ** Order of the classifications *)

Section ClassificationOrder.

Local Open Scope float_scope.

Local Ltac order_cases :=
  repeat match goal with
    | |- context [Pos.compare_cont Eq ?a ?b] =>
        change (Pos.compare_cont Eq a b) with (Pos.compare a b)
    | H : context [Pos.compare_cont Eq ?a ?b] |- _ =>
        change (Pos.compare_cont Eq a b) with (Pos.compare a b) in H
    end;
  repeat match goal with
    | |- context [Z.compare ?a ?b] => destruct (Z.compare_spec a b)
    | H : context [Z.compare ?a ?b] |- _ => destruct (Z.compare_spec a b)
    | |- context [Pos.compare ?a ?b] => destruct (Pos.compare_spec a b)
    | H : context [Pos.compare ?a ?b] |- _ => destruct (Pos.compare_spec a b)
    end;
  simpl in *; try discriminate; try reflexivity; try lia.

Lemma SFleb_SFltb_trans (a b c : spec_float) :
  SFleb a b = true -> SFltb b c = true -> SFltb a c = true.
Proof.
  unfold SFltb, SFleb.
  destruct a as [[]|[]| |[] ma ea], b as [[]|[]| |[] mb eb],
           c as [[]|[]| |[] mc ec];
    simpl; try discriminate; try reflexivity; intros; order_cases.
Qed.

Lemma leb_ltb_trans (a b c : float) :
  (a <=? b) = true -> (b <? c) = true -> (a <? c) = true.
Proof. rewrite !ltb_spec, leb_spec. apply SFleb_SFltb_trans. Qed.

(** X18: the colours are monotone: of two ages the greater never gets the
    fresher colour, and of two divergences the one of smaller magnitude is
    ALIGNED whenever the other is. *)
Theorem classification_monotone (a b : float) :
  ((a <=? b) = true ->
   (staleness (colorTime a) <= staleness (colorTime b))%nat) /\
  ((abs a <=? abs b) = true ->
   colorDiff b = ALIGNED -> colorDiff a = ALIGNED).
Proof.
  split.
  - intros Hab. unfold colorTime.
    destruct (b <? 15) eqn:Eb15.
    { now rewrite (leb_ltb_trans a b 15 Hab Eb15). }
    destruct (b <? 30) eqn:Eb30.
    { rewrite (leb_ltb_trans a b 30 Hab Eb30).
      destruct (a <? 15); vm_compute; lia. }
    destruct (a <? 15); [vm_compute; lia|].
    destruct (a <? 30); vm_compute; lia.
  - intros Hab. unfold colorDiff.
    destruct (abs b <? 0.02) eqn:Eb; [|discriminate].
    intros _. now rewrite (leb_ltb_trans _ _ _ Hab Eb).
Qed.

Lemma classification_monotone_witness :
  (staleness (colorTime 12.5) <= staleness (colorTime 47))%nat /\
  colorDiff (-0.01) = ALIGNED.
Proof.
  split.
  - apply (proj1 (classification_monotone 12.5 47)). reflexivity.
  - apply (proj2 (classification_monotone (-0.01) 0.015)); reflexivity.
Defined.

Lemma shr_fexp_nonneg (m e : Z) (l : location) :
  (0 <= m)%Z -> (0 <= shr_m (fst (shr_fexp prec emax m e l)))%Z.
Proof.
  intros Hm. unfold shr_fexp, shr.
  destruct (fexp prec emax (Zdigits2 m + e) - e)%Z as [|n|n]; simpl;
    rewrite ?shr_m_record_of_loc; try exact Hm.
  rewrite shr_m_iter by (rewrite shr_m_record_of_loc; exact Hm).
  rewrite shr_m_record_of_loc.
  apply Z.div_pos; [exact Hm|]. apply Z.pow_pos_nonneg; lia.
Qed.

(** Rounding a non-negative mantissa gives a zero, a finite value or an
    infinity of the requested sign. *)
Lemma binary_round_aux_sign (s : bool) (m e : Z) (l : location) :
  (0 <= m)%Z ->
  binary_round_aux prec emax s m e l = S754_zero s \/
  binary_round_aux prec emax s m e l = S754_infinity s \/
  exists mf ef, binary_round_aux prec emax s m e l = S754_finite s mf ef.
Proof.
  intros Hm. unfold binary_round_aux.
  pose proof (shr_fexp_nonneg m e l Hm) as H1.
  destruct (shr_fexp prec emax m e l) as [mrs e1]. simpl in H1.
  pose proof (round_nearest_even_ge (shr_m mrs) (loc_of_shr_record mrs)) as Hge.
  set (m1 := round_nearest_even (shr_m mrs) (loc_of_shr_record mrs)) in *.
  pose proof (shr_fexp_nonneg m1 e1 loc_Exact ltac:(lia)) as H2.
  destruct (shr_fexp prec emax m1 e1 loc_Exact) as [mrs2 e2]. simpl in H2.
  destruct (shr_m mrs2) as [|mf|mf]; [now left| |lia].
  right. destruct (e2 <=? emax - prec)%Z; [right|now left].
  now exists mf, e2.
Qed.

(** A negative finite or infinite value divided by 60 is below 15. *)
Lemma negative_div_60 (d : spec_float) :
  d = S754_infinity true \/ (exists md ed, d = S754_finite true md ed) ->
  SFltb (SFdiv prec emax d (Prim2SF 60)) (Prim2SF 15) = true.
Proof.
  change (Prim2SF 60) with (S754_finite false 8444249301319680 (-47)).
  change (Prim2SF 15) with (S754_finite false 8444249301319680 (-49)).
  intros [->|(md & ed & ->)]; [reflexivity|].
  destruct (SFdiv_unfold true false md 8444249301319680 ed (-47))
    as (e' & He' & ->).
  destruct (binary_round_aux_sign (xorb true false)
              (Z.pos md * 2 ^ (ed - -47 - e') / 8444249301319680) e'
              (new_location 8444249301319680
                 (Z.pos md * 2 ^ (ed - -47 - e') mod 8444249301319680)))
    as [->|[->|(mf & ef & ->)]]; try reflexivity.
  apply Z.div_pos; [|lia].
  apply Z.mul_nonneg_nonneg; [lia|]. apply Z.pow_nonneg. lia.
Qed.

(** X19: a row whose update time is later than the clock of the page is
    FRESH. *)
Theorem future_update_is_fresh (nowSec : float) (r : OracleRow) :
  (nowSec <? lastUpdateTime r) = true ->
  timeColor (renderRow nowSec r) = FRESH.
Proof.
  intros Hlt. unfold renderRow. cbv zeta. simpl.
  unfold colorTime, minsSince.
  assert (H15 : ((nowSec - lastUpdateTime r) / 60 <? 15) = true).
  { rewrite ltb_spec, div_spec, sub_spec. rewrite ltb_spec in Hlt.
    apply negative_div_60.
    pose proof (Prim2SF_valid nowSec) as Hvx.
    pose proof (Prim2SF_valid (lastUpdateTime r)) as Hvt.
    destruct (Prim2SF nowSec) as [[]|[]| |sx mx ex],
             (Prim2SF (lastUpdateTime r)) as [[]|[]| |st mt et];
      try discriminate Hlt;
      try (left; reflexivity);
      try (right; eexists _, _; reflexivity).
    - destruct st; [discriminate Hlt|]. right. now eexists _, _.
    - destruct st; [discriminate Hlt|]. right. now eexists _, _.
    - destruct sx; [|discriminate Hlt]. right. now eexists _, _.
    - destruct sx; [|discriminate Hlt]. right. now eexists _, _.
    - pose proof (SFsub_finite_cases sx st mx mt ex et Hvx Hvt) as Hd.
      cbv zeta in Hd. unfold SFltb in Hlt.
      destruct (SFcompare (S754_finite sx mx ex) (S754_finite st mt et))
        as [[]|]; try discriminate Hlt.
      destruct Hd as [Hd|(md & ed & Hd & _)]; [now left|].
      right. now exists md, ed. }
  now rewrite H15.
Qed.

Lemma future_update_is_fresh_witness :
  let r := {| oracle := ethUsd; lastOnChainPrice := 2500; freshPrice := 2501;
              lastUpdateTime := 1762045200; isUpdating := false |} in
  timeColor (renderRow 1762041600 r) = FRESH.
Proof.
  intros r. apply (future_update_is_fresh 1762041600 r). reflexivity.
Defined.

End ClassificationOrder.

(** ** Oracles that share a feed *)

Section SharedFeed.




End SharedFeed.

(** ** Equal prices *)

Section EqualPrices.

Local Open Scope float_scope.

Lemma SFcompare_refl (s : bool) (m : positive) (e : Z) :
  SFcompare (S754_finite s m e) (S754_finite s m e) = Some Eq.
Proof.
  destruct s; simpl; now rewrite Z.compare_refl, Pos.compare_cont_refl.
Qed.

(** The ratio of a finite price against itself is a zero. *)
Lemma diffRatio_equal (r : OracleRow) :
  freshPrice r = lastOnChainPrice r ->
  (abs (lastOnChainPrice r) <? infinity) = true ->
  diffRatio r = 0 \/ diffRatio r = -0.
Proof.
  intros Hf Hfin. unfold diffRatio. rewrite Hf.
  destruct (lastOnChainPrice r =? 0) eqn:Ez; [now left|].
  rewrite ltb_spec, abs_spec in Hfin. rewrite eqb_spec in Ez.
  pose proof (Prim2SF_valid (lastOnChainPrice r)) as Hv.
  destruct (Prim2SF (lastOnChainPrice r)) as [[]|[]| |s m e] eqn:E;
    try discriminate.
  pose proof (SFsub_finite_cases s s m m e e Hv Hv) as Hd.
  cbv zeta in Hd. rewrite SFcompare_refl in Hd.
  assert (Hr : Prim2SF ((lastOnChainPrice r - lastOnChainPrice r)
                        / lastOnChainPrice r) = S754_zero s).
  { rewrite div_spec, sub_spec, E. unfold SF64div, SF64sub.
    rewrite Hd. now destruct s. }
  destruct s; [right|left]; apply Prim2SF_inj; now rewrite Hr.
Qed.

(** X21: a row whose reference price equals its finite on-chain price
    shows a divergence of "0.00%" in the colour ALIGNED. *)
Theorem equal_prices_are_aligned (nowSec : float) (r : OracleRow) :
  freshPrice r = lastOnChainPrice r ->
  (abs (lastOnChainPrice r) <? infinity) = true ->
  diffCell (renderRow nowSec r) = Some "0.00%" /\
  diffColor (renderRow nowSec r) = ALIGNED.
Proof.
  intros Hf Hfin. unfold renderRow. cbv zeta. simpl.
  destruct (diffRatio_equal r Hf Hfin) as [-> | ->]; split; reflexivity.
Qed.

Lemma equal_prices_are_aligned_witness :
  let r := {| oracle := ethUsd; lastOnChainPrice := 2500.25;
              freshPrice := 2500.25; lastUpdateTime := 1762041000;
              isUpdating := false |} in
  diffCell (renderRow 1762041600 r) = Some "0.00%".
Proof.
  intros r.
  apply (equal_prices_are_aligned 1762041600 r eq_refl eq_refl).
Defined.

End EqualPrices.

(** ** The statistics page *)

Section StatsProperties.

Variable getAddress : string -> Result string.
Variable FIRE_TOKEN_ADDRESS : string.

Local Open Scope float_scope.

Local Ltac run_stats :=
  unfold loadStats, tryCatchFinally, statsBody, bind, await, ret,
    setLoading, setCircSupply, setBurned, setFirePriceEth, setEthUsdPrice,
    setFirePriceUsd, setMarketCap, setBurnedValue, modify; simpl.

(** X9: when one of the three reads of the token throws, [loadStats]
    leaves every figure of the page as it was. *)
Theorem loadStats_token_read_failure (w : StatsWorld) typedOracles s :
  (exists m, totalSupplyRead w = Threw m) \/
  (exists m, devBalRead w = Threw m) \/
  (exists m, burnedBalRead w = Threw m) ->
  let s' := loadStats getAddress FIRE_TOKEN_ADDRESS w typedOracles s in
  loading s' = false /\
  supplyFigures s' = supplyFigures s /\
  firePriceEth s' = firePriceEth s /\
  usdFigures s' = usdFigures s.
Proof.
  intros H. run_stats.
  destruct (totalSupplyRead w) as [m0|total]; [now repeat split|].
  destruct (devBalRead w) as [m1|dev]; [now repeat split|].
  destruct (burnedBalRead w) as [m2|burnedBal]; [now repeat split|].
  destruct H as [[m H]|[[m H]|[m H]]]; discriminate.
Qed.

(** X10: when the reads of the token return and a later step throws,
    the supply figures are the new ones while the figures in dollars are
    those of before: a throw of the pair reads or of [getAddress] also
    keeps the old price in ETH, a throw of the Hermes request does not. *)
Theorem loadStats_later_failure (w : StatsWorld) typedOracles s
  total dev burnedBal :
  totalSupplyRead w = Returned total ->
  devBalRead w = Returned dev ->
  burnedBalRead w = Returned burnedBal ->
  let s' := loadStats getAddress FIRE_TOKEN_ADDRESS w typedOracles s in
  supplyFigures s'
  = (JS.Number_of_bigint (total - dev - burnedBal) / 1e18,
     JS.Number_of_bigint burnedBal / 1e18) /\
  ((exists m, token0Read w = Threw m) \/
   (exists m, getReservesRead w = Threw m) \/
   (exists token0 m, token0Read w = Returned token0 /\
                     getAddress token0 = Threw m) ->
   firePriceEth s' = firePriceEth s /\ usdFigures s' = usdFigures s) /\
  (forall feed,
     ethUsdFeed typedOracles = Some feed ->
     hermesRead w (pythFeedId feed) = HermesThrows ->
     usdFigures s' = usdFigures s).
Proof.
  intros Ht Hd Hb. run_stats. rewrite Ht, Hd, Hb. simpl.
  fold (ethUsdFeed typedOracles).
  destruct (token0Read w) as [m0|token0] eqn:E0.
  { split; [reflexivity|]. split; [now split|reflexivity]. }
  destruct (getReservesRead w) as [m1|reserves] eqn:E1.
  { split; [reflexivity|]. split; [now split|reflexivity]. }
  destruct (getAddress token0) as [m2|token0Address] eqn:E2.
  { split; [reflexivity|]. split; [now split|reflexivity]. }
  assert (Hno : ~ ((exists m : string, Returned token0 = Threw m) \/
                   (exists m : string, Returned reserves = Threw m) \/
                   (exists (t : string) (m : string),
                      Returned token0 = Returned t /\ getAddress t = Threw m))).
  { intros [[m H]|[[m H]|(t & m & H & H')]]; try discriminate.
    injection H as <-. rewrite E2 in H'. discriminate. }
  destruct (String.eqb token0Address FIRE_TOKEN_ADDRESS);
    destruct (ethUsdFeed typedOracles) as [feed|]; simpl;
    try destruct (hermesRead w (pythFeedId feed)) eqn:Eh; simpl;
    (split; [reflexivity|]); (split; [intros H; now destruct Hno|]);
    intros feed' Hfeed Hthrows; try discriminate;
    injection Hfeed as <-; rewrite Eh in Hthrows; try discriminate;
    reflexivity.
Qed.

(** X11: when nothing throws, the page is consistent: the dollar price of
    FIRE is its price in ETH times the ETH/USD price, the market cap and the
    burned value are the two supplies times that dollar price, and nothing
    of the previous state remains. *)
Theorem loadStats_consistent (w : StatsWorld) typedOracles s
  total dev burnedBal token0 reserves token0Address :
  totalSupplyRead w = Returned total ->
  devBalRead w = Returned dev ->
  burnedBalRead w = Returned burnedBal ->
  token0Read w = Returned token0 ->
  getReservesRead w = Returned reserves ->
  getAddress token0 = Returned token0Address ->
  (forall feed, ethUsdFeed typedOracles = Some feed ->
                hermesRead w (pythFeedId feed) <> HermesThrows) ->
  let s' := loadStats getAddress FIRE_TOKEN_ADDRESS w typedOracles s in
  firePriceUsd s' = firePriceEth s' * ethUsdPrice s' /\
  marketCap s' = circSupply s' * firePriceUsd s' /\
  burnedValue s' = burned s' * firePriceUsd s' /\
  s' = loadStats getAddress FIRE_TOKEN_ADDRESS w typedOracles initialStats.
Proof.
  intros Ht Hd Hb H0 Hr Ha Hfeed. run_stats.
  rewrite Ht, Hd, Hb, H0, Hr, Ha. simpl.
  fold (ethUsdFeed typedOracles) in *.
  destruct (String.eqb token0Address FIRE_TOKEN_ADDRESS);
    destruct (ethUsdFeed typedOracles) as [feed|]; simpl;
    try (specialize (Hfeed feed eq_refl);
         destruct (hermesRead w (pythFeedId feed)); [contradiction| |]);
    simpl; repeat split.
Qed.

(** X12: the ETH/USD price of the statistics page is the price the oracle
    table stores for the same Hermes answer, asked for the first oracle
    configured as "ETH/USD"; without such an oracle it is 0 and Hermes is
    not consulted. *)
Theorem loadStats_eth_price (w : StatsWorld) typedOracles s
  total dev burnedBal token0 reserves token0Address :
  totalSupplyRead w = Returned total ->
  devBalRead w = Returned dev ->
  burnedBalRead w = Returned burnedBal ->
  token0Read w = Returned token0 ->
  getReservesRead w = Returned reserves ->
  getAddress token0 = Returned token0Address ->
  let s' := loadStats getAddress FIRE_TOKEN_ADDRESS w typedOracles s in
  match ethUsdFeed typedOracles with
  | Some feed =>
      hermesRead w (pythFeedId feed) <> HermesThrows ->
      ethUsdPrice s' = freshPriceOf (hermesRead w (pythFeedId feed))
  | None => ethUsdPrice s' = 0
  end.
Proof.
  intros Ht Hd Hb H0 Hr Ha. run_stats.
  rewrite Ht, Hd, Hb, H0, Hr, Ha. simpl.
  fold (ethUsdFeed typedOracles).
  destruct (String.eqb token0Address FIRE_TOKEN_ADDRESS);
    destruct (ethUsdFeed typedOracles) as [feed|]; simpl; try reflexivity;
    intros Hno;
    destruct (hermesRead w (pythFeedId feed)) as [|st|data];
    try contradiction; simpl; try reflexivity;
    unfold ethPriceOfData, priceOfData;
    destruct (parsed data) as [[|p l]|]; reflexivity.
Qed.

(** X13: the price in ETH does not depend on the order in which the pair
    holds its two tokens: a pair with FIRE as token0 and reserves [(a, b)]
    and a pair with FIRE as token1 and reserves [(b, a)] give the same
    page. *)
Theorem loadStats_reserve_orientation (w1 w2 : StatsWorld) typedOracles s
  t1 t2 other a b ts1 ts2 :
  totalSupplyRead w1 = totalSupplyRead w2 ->
  devBalRead w1 = devBalRead w2 ->
  burnedBalRead w1 = burnedBalRead w2 ->
  hermesRead w1 = hermesRead w2 ->
  token0Read w1 = Returned t1 ->
  getAddress t1 = Returned FIRE_TOKEN_ADDRESS ->
  getReservesRead w1 = Returned (a, b, ts1) ->
  token0Read w2 = Returned t2 ->
  getAddress t2 = Returned other ->
  other <> FIRE_TOKEN_ADDRESS ->
  getReservesRead w2 = Returned (b, a, ts2) ->
  loadStats getAddress FIRE_TOKEN_ADDRESS w1 typedOracles s
  = loadStats getAddress FIRE_TOKEN_ADDRESS w2 typedOracles s /\
  (forall total dev burnedBal,
     totalSupplyRead w1 = Returned total ->
     devBalRead w1 = Returned dev ->
     burnedBalRead w1 = Returned burnedBal ->
     firePriceEth (loadStats getAddress FIRE_TOKEN_ADDRESS w1 typedOracles s)
     = JS.Number_of_bigint b / JS.Number_of_bigint a).
Proof.
  intros Ht Hd Hb Hh H1 Ha1 Hr1 H2 Ha2 Hne Hr2. run_stats.
  rewrite <- Ht, <- Hd, <- Hb, <- Hh, H1, H2, Hr1, Hr2.
  destruct (totalSupplyRead w1) as [m|total]; simpl.
  { split; [reflexivity|]. intros; discriminate. }
  destruct (devBalRead w1) as [m|dev]; simpl.
  { split; [reflexivity|]. intros; discriminate. }
  destruct (burnedBalRead w1) as [m|burnedBal]; simpl.
  { split; [reflexivity|]. intros; discriminate. }
  rewrite Ha1, Ha2. simpl.
  rewrite String.eqb_refl.
  apply String.eqb_neq in Hne. rewrite Hne. simpl.
  split.
  - destruct (find _ typedOracles) as [feed|]; simpl; [|reflexivity].
    destruct (hermesRead w1 (pythFeedId feed)); reflexivity.
  - intros _ _ _ _ _ _.
    destruct (find _ typedOracles) as [feed|]; simpl; [|reflexivity].
    destruct (hermesRead w1 (pythFeedId feed)); reflexivity.
Qed.

(** X22: with FIRE as token0 of the pair, the price of FIRE in ETH is set
    as soon as the pair has been read, whatever Hermes does afterwards;
    with two non-zero [uint112] reserves it is a positive finite number,
    with an empty FIRE reserve it is [Infinity], and [NaN] when the pair is
    empty. *)
Theorem loadStats_price_of_reserves (w : StatsWorld) typedOracles s
  total dev burnedBal token0 (reserveFire reserveEth ts : Z) :
  totalSupplyRead w = Returned total ->
  devBalRead w = Returned dev ->
  burnedBalRead w = Returned burnedBal ->
  token0Read w = Returned token0 ->
  getAddress token0 = Returned FIRE_TOKEN_ADDRESS ->
  getReservesRead w = Returned (reserveFire, reserveEth, ts) ->
  uint112 reserveFire -> uint112 reserveEth ->
  let firePrice :=
    firePriceEth (loadStats getAddress FIRE_TOKEN_ADDRESS w typedOracles s) in
  (reserveFire <> 0%Z -> reserveEth <> 0%Z ->
   (0 <? firePrice) = true /\ (firePrice <? infinity) = true) /\
  (reserveFire = 0%Z -> reserveEth <> 0%Z -> firePrice = infinity) /\
  (reserveFire = 0%Z -> reserveEth = 0%Z -> firePrice = nan).
Proof.
  intros Ht Hd Hb H0 Ha Hr [Hf0 Hf1] [He0 He1].
  assert (Hprice :
    firePriceEth (loadStats getAddress FIRE_TOKEN_ADDRESS w typedOracles s)
    = JS.Number_of_bigint reserveEth / JS.Number_of_bigint reserveFire).
  { run_stats. rewrite Ht, Hd, Hb, H0, Hr, Ha. simpl.
    rewrite String.eqb_refl. simpl.
    destruct (find _ typedOracles) as [feed|]; simpl; [|reflexivity].
    destruct (hermesRead w (pythFeedId feed)); reflexivity. }
  cbv zeta. rewrite Hprice. clear Hprice.
  assert (Hdig : forall z, (0 < z < 2 ^ 112)%Z ->
                           (1 <= Zdigits2 z <= 112)%Z).
  { intros z Hz. split; [apply Zdigits2_nonzero; lia|].
    apply Zdigits2_le; lia. }
  split; [|split].
  - intros Hfz Hez.
    destruct (Hdig reserveFire ltac:(lia)) as [Hdf1 Hdf2].
    destruct (Hdig reserveEth ltac:(lia)) as [Hde1 Hde2].
    destruct (Number_of_bigint_finite reserveFire Hfz ltac:(lia))
      as (mf & ef & Ef & Hmf).
    destruct (Number_of_bigint_finite reserveEth Hez ltac:(lia))
      as (me & ee & Ee & Hme).
    replace (reserveFire <? 0)%Z with false in Ef by (symmetry; lia).
    replace (reserveEth <? 0)%Z with false in Ee by (symmetry; lia).
    destruct (SFdiv_finite false false me mf ee ef) as (mq & eq & Eq);
      try (unfold emin64; lia).
    rewrite !ltb_spec, div_spec, Ee, Ef. unfold SF64div. rewrite Eq.
    split; reflexivity.
  - intros -> Hez.
    destruct (Hdig reserveEth ltac:(lia)) as [Hde1 Hde2].
    destruct (Number_of_bigint_finite reserveEth Hez ltac:(lia))
      as (me & ee & Ee & Hme).
    replace (reserveEth <? 0)%Z with false in Ee by (symmetry; lia).
    apply Prim2SF_inj. rewrite div_spec, Ee. reflexivity.
  - intros -> ->. reflexivity.
Qed.


End StatsProperties.

Lemma loadStats_token_read_failure_witness :
  let w := {| totalSupplyRead := Returned 1000000000000000000000000000%Z;
              devBalRead := Threw "rpc";
              burnedBalRead := Returned 0%Z;
              token0Read := Returned "0xF1";
              getReservesRead := Returned (4000%Z, 2%Z, 1762041000%Z);
              hermesRead := fun _ => hermesPrice "25010000000" (-7) |} in
  supplyFigures (loadStats Returned "0xF1" w [ethUsd] initialStats)
  = (0%float, 0%float).
Proof.
  intros w.
  apply (loadStats_token_read_failure Returned "0xF1" w [ethUsd] initialStats).
  right. left. now exists "rpc".
Defined.

Lemma loadStats_later_failure_witness :
  let w := {| totalSupplyRead := Returned 1000000000000000000000000000%Z;
              devBalRead := Returned 100000000000000000000000000%Z;
              burnedBalRead := Returned 50000000000000000000000000%Z;
              token0Read := Returned "0xF1";
              getReservesRead := Threw "rpc";
              hermesRead := fun _ => hermesPrice "25010000000" (-7) |} in
  supplyFigures (loadStats Returned "0xF1" w [ethUsd] initialStats)
  = (850000000%float, 50000000%float).
Proof.
  intros w.
  apply (loadStats_later_failure Returned "0xF1" w [ethUsd] initialStats
           1000000000000000000000000000 100000000000000000000000000
           50000000000000000000000000 eq_refl eq_refl eq_refl).
Defined.

Lemma loadStats_consistent_witness :
  let w := {| totalSupplyRead := Returned 1000000000000000000000000000%Z;
              devBalRead := Returned 100000000000000000000000000%Z;
              burnedBalRead := Returned 50000000000000000000000000%Z;
              token0Read := Returned "0xF1";
              getReservesRead := Returned (4000%Z, 2%Z, 1762041000%Z);
              hermesRead := fun _ => hermesPrice "25010000000" (-7) |} in
  let s' := loadStats Returned "0xF1" w [ethUsd] initialStats in
  (firePriceUsd s' = firePriceEth s' * ethUsdPrice s')%float.
Proof.
  intros w.
  apply (loadStats_consistent Returned "0xF1" w [ethUsd] initialStats
           1000000000000000000000000000 100000000000000000000000000
           50000000000000000000000000 "0xF1" (4000, 2, 1762041000)%Z "0xF1"
           eq_refl eq_refl eq_refl eq_refl eq_refl eq_refl).
  intros feed [= <-]. discriminate.
Defined.

Lemma loadStats_eth_price_witness :
  let w := {| totalSupplyRead := Returned 1000000000000000000000000000%Z;
              devBalRead := Returned 100000000000000000000000000%Z;
              burnedBalRead := Returned 50000000000000000000000000%Z;
              token0Read := Returned "0xF1";
              getReservesRead := Returned (4000%Z, 2%Z, 1762041000%Z);
              hermesRead := fun _ => hermesPrice "25010000000" (-7) |} in
  ethUsdPrice (loadStats Returned "0xF1" w [btcUsd; ethUsd] initialStats)
  = 2501%float.
Proof.
  intros w.
  apply (loadStats_eth_price Returned "0xF1" w [btcUsd; ethUsd] initialStats
           1000000000000000000000000000 100000000000000000000000000
           50000000000000000000000000 "0xF1" (4000, 2, 1762041000)%Z "0xF1"
           eq_refl eq_refl eq_refl eq_refl eq_refl eq_refl).
  discriminate.
Defined.

Lemma loadStats_reserve_orientation_witness :
  let w1 := {| totalSupplyRead := Returned 1000000000000000000000000000%Z;
               devBalRead := Returned 100000000000000000000000000%Z;
               burnedBalRead := Returned 50000000000000000000000000%Z;
               token0Read := Returned "0xF1";
               getReservesRead := Returned (4000%Z, 2%Z, 1762041000%Z);
               hermesRead := fun _ => hermesPrice "25010000000" (-7) |} in
  let w2 := {| totalSupplyRead := Returned 1000000000000000000000000000%Z;
               devBalRead := Returned 100000000000000000000000000%Z;
               burnedBalRead := Returned 50000000000000000000000000%Z;
               token0Read := Returned "0xE7";
               getReservesRead := Returned (2%Z, 4000%Z, 1762041001%Z);
               hermesRead := fun _ => hermesPrice "25010000000" (-7) |} in
  loadStats Returned "0xF1" w1 [ethUsd] initialStats
  = loadStats Returned "0xF1" w2 [ethUsd] initialStats.
Proof.
  intros w1 w2.
  apply (loadStats_reserve_orientation Returned "0xF1" w1 w2 [ethUsd]
           initialStats "0xF1" "0xE7" "0xE7" 4000 2 1762041000 1762041001
           eq_refl eq_refl eq_refl eq_refl eq_refl eq_refl eq_refl eq_refl
           eq_refl).
  - discriminate.
  - reflexivity.
Defined.

Lemma loadStats_price_of_reserves_witness :
  let w := {| totalSupplyRead := Returned 1000000000000000000000000000%Z;
              devBalRead := Returned 100000000000000000000000000%Z;
              burnedBalRead := Returned 50000000000000000000000000%Z;
              token0Read := Returned "0xF1";
              getReservesRead := Returned (0%Z, 2%Z, 1762041000%Z);
              hermesRead := fun _ => HermesThrows |} in
  firePriceEth (loadStats Returned "0xF1" w [ethUsd] initialStats) = infinity.
Proof.
  intros w.
  apply (loadStats_price_of_reserves Returned "0xF1" w [ethUsd] initialStats
           1000000000000000000000000000 100000000000000000000000000
           50000000000000000000000000 "0xF1" 0 2 1762041000
           eq_refl eq_refl eq_refl eq_refl eq_refl eq_refl).
  - split; vm_compute; [discriminate|reflexivity].
  - split; vm_compute; [discriminate|reflexivity].
  - reflexivity.
  - discriminate.
Defined.

(** ** The FAQ page *)

Section FaqPage.

Lemma shownAnswers_from (faqs : list (string * string)) (expanded : option nat)
  (k : nat) :
  omap snd
    (imap (fun i item =>
             (fst item,
              if decide (expanded = Some (k + i)%nat)
              then Some (snd item) else None)) faqs)
  = match expanded with
    | Some j =>
        if decide (k <= j)%nat
        then match faqs !! (j - k)%nat with
             | Some item => [snd item]
             | None => []
             end
        else []
    | None => []
    end.
Proof.
  revert k. induction faqs as [|item faqs IH]; intros k.
  - destruct expanded as [j|]; [|reflexivity].
    destruct (decide (k <= j)%nat); reflexivity.
  - rewrite imap_cons. simpl.
    rewrite (imap_ext _ (fun i item =>
               (fst item,
                if decide (expanded = Some (S k + i)%nat)
                then Some (snd item) else None))).
    2:{ intros i x _. simpl. now replace (k + S i)%nat with (S (k + i)) by lia. }
    rewrite IH. destruct expanded as [j|].
    + destruct (decide (Some j = Some (k + 0)%nat)) as [E|E].
      * injection E as ->. replace (k + 0 - k)%nat with 0%nat by lia.
        destruct (decide (k <= k + 0)%nat); [|lia].
        destruct (decide (S k <= k + 0)%nat); [lia|]. reflexivity.
      * assert (j <> k) by (intros ->; apply E; f_equal; lia).
        destruct (decide (k <= j)%nat), (decide (S k <= j)%nat);
          try lia; try reflexivity.
        replace (j - k)%nat with (S (j - S k)) by lia. reflexivity.
    + destruct (decide (None = Some (k + 0)%nat)); [discriminate|reflexivity].
Qed.

Lemma shownAnswers_faqView (faqs : list (string * string)) expanded :
  shownAnswers (faqView faqs expanded)
  = match expanded ≫= (faqs !!.) with
    | Some item => [snd item]
    | None => []
    end.
Proof.
  unfold shownAnswers, faqView.
  pose proof (shownAnswers_from faqs expanded 0) as H.
  cbn [Nat.add] in H. rewrite H. clear H.
  destruct expanded as [j|]; [|reflexivity]. simpl.
  destruct (decide (0 <= j)%nat); [|lia].
  now replace (j - 0)%nat with j by lia.
Qed.

(** X14: the FAQ page lists every question in order and shows at most one
    answer; clicking a question shows its answer alone, unless it was the
    one open, in which case no answer is shown any more. *)
Theorem faq_toggle (faqs : list (string * string)) (expanded : option nat)
  (i : nat) q a :
  faqs !! i = Some (q, a) ->
  map fst (faqView faqs expanded) = map fst faqs /\
  (List.length (shownAnswers (faqView faqs expanded)) <= 1)%nat /\
  shownAnswers (faqView faqs (toggle expanded i))
  = (if decide (expanded = Some i) then [] else [a]).
Proof.
  intros Hi. split; [|split].
  - assert (G : forall (l : list (string * string))
                        (g : nat -> string * string -> string * option string),
               (forall k x, fst (g k x) = fst x) ->
               map fst (imap g l) = map fst l).
    { induction l as [|x l IH]; intros g Hg; [reflexivity|].
      rewrite imap_cons. simpl. rewrite Hg. f_equal.
      apply IH. intros k y. apply Hg. }
    apply G. reflexivity.
  - rewrite shownAnswers_faqView.
    destruct (expanded ≫= (faqs !!.)); simpl; lia.
  - rewrite shownAnswers_faqView. unfold toggle.
    destruct (decide (expanded = Some i)); simpl; [reflexivity|].
    now rewrite Hi.
Qed.

Lemma faq_toggle_witness :
  shownAnswers
    (faqView [("What is Bonfire?", "A mini-protocol."); ("More?", "No.")]
       (toggle (Some 0%nat) 1))
  = ["No."].
Proof.
  apply (faq_toggle [("What is Bonfire?", "A mini-protocol."); ("More?", "No.")]
           (Some 0%nat) 1 "More?" "No." eq_refl).
Defined.

End FaqPage.
